(** * Quotes API: a shallow embedding of [database.js] and [server.js]

    The development follows the two source files:

    - [database.js]: the [quotes] table, its five prepared statements and
      the [QuotesDB] methods, among them the bulk-insert transaction;
    - [server.js]: the two validators, the route handlers and the two
      terminal middlewares (not-found and error handler).

    JavaScript values are an inductive type, a handler is a computation in
    a state-and-exception monad over the process state (the database file,
    the SQLite random generator and a log of the storage methods invoked),
    and the SQL statements are given the meaning SQLite gives them on the
    schema created by [init]. *)

From Stdlib Require Import List String Ascii ZArith Bool Arith Lia.
From Stdlib Require Import Permutation Sorted DecimalString OrderedTypeEx.
Import ListNotations.

Set Warnings "-register-all".
Local Open Scope string_scope.
Local Open Scope Z_scope.

(* ===================================================================== *)
(** ** JavaScript values *)
(* ===================================================================== *)

(** The values a JSON body can hold, and [undefined] for absent
    properties.  Numbers are the integers only (a number with a fraction
    has no value here): the handlers only test a number against zero and
    print the length of an array. *)
Inductive jsval : Type :=
| JUndefined
| JNull
| JBool (b : bool)
| JNum (n : Z)
| JStr (s : string)
| JArr (elems : list jsval)
| JObj (props : list (string * jsval)).

(** A thrown [Error]: its constructor name and its [message]. *)
Record jserror : Type := mkError { err_name : string; err_message : string }.

Definition TypeError (msg : string) : jserror := mkError "TypeError" msg.
Definition RangeError (msg : string) : jserror := mkError "RangeError" msg.
Definition SqliteError (msg : string) : jserror := mkError "SqliteError" msg.
Definition SyntaxError (msg : string) : jserror := mkError "SyntaxError" msg.

(** The result of evaluating an expression: a value or a thrown error. *)
Inductive outcome (A : Type) : Type :=
| Return (a : A)
| Throw (e : jserror).
Arguments Return {A} a.
Arguments Throw {A} e.

(** ToBoolean. *)
Definition truthy (v : jsval) : bool :=
  match v with
  | JUndefined | JNull => false
  | JBool b => b
  | JNum n => negb (n =? 0)
  | JStr s => negb (String.eqb s "")
  | JArr _ | JObj _ => true
  end.

(** [a && b] on values: the left operand when it is falsy. *)
Definition js_and (a b : jsval) : jsval := if truthy a then b else a.

Fixpoint lookup (k : string) (props : list (string * jsval)) : option jsval :=
  match props with
  | [] => None
  | (k', v) :: rest => if String.eqb k k' then Some v else lookup k rest
  end.

Definition dquote : string := String "034"%char EmptyString.
Definition squote : string := String "039"%char EmptyString.

Definition type_name (v : jsval) : string :=
  match v with JNull => "null" | _ => "undefined" end.

(** Property read [v.k] for the keys the server reads ([quote], [author],
    [language]): reading a property of [null] or [undefined] throws, an
    object yields its own property, every other value yields [undefined]
    (none of the three keys is on a built-in prototype). *)
Definition get_prop (v : jsval) (k : string) : outcome jsval :=
  match v with
  | JUndefined | JNull =>
      Throw (TypeError ("Cannot read properties of " ++ type_name v ++
                        " (reading " ++ squote ++ k ++ squote ++ ")"))
  | JObj props =>
      Return (match lookup k props with Some x => x | None => JUndefined end)
  | _ => Return JUndefined
  end.

(** Number::toString on the integers of the model. *)
Definition number_to_string (n : Z) : string :=
  NilZero.string_of_int (Z.to_int n).

(** ToString, as template literals apply it. *)
Fixpoint to_string (v : jsval) : string :=
  match v with
  | JUndefined => "undefined"
  | JNull => "null"
  | JBool true => "true"
  | JBool false => "false"
  | JNum n => number_to_string n
  | JStr s => s
  | JArr elems =>
      String.concat ","
        (map (fun e => match e with
                       | JUndefined | JNull => ""
                       | _ => to_string e
                       end) elems)
  | JObj _ => "[object Object]"
  end.

(** [['fr', 'en'].includes(v)]: SameValueZero against the two strings. *)
Definition includes_fr_en (v : jsval) : bool :=
  match v with
  | JStr s => String.eqb s "fr" || String.eqb s "en"
  | _ => false
  end.

(* ===================================================================== *)
(** ** The process state and the monad of handlers *)
(* ===================================================================== *)

(** A row of [quotes].  [id INTEGER PRIMARY KEY] is the rowid; the three
    other columns are [TEXT NOT NULL], so a stored row holds three texts
    (see [text_affinity] for what happens to other bound values). *)
Record row : Type := mkRow {
  rowid : Z;
  quote : string;
  author : string;
  language : string
}.

(** The database file: the table in rowid order and the AUTOINCREMENT
    counter SQLite keeps for it in [sqlite_sequence]. *)
Record database : Type := mkDb {
  quotes : list row;
  sqlite_sequence : Z
}.

Definition empty_database : database := mkDb [] 0.

(** The methods of [QuotesDB]. *)
Inductive storage_call : Type :=
| Call_getAllQuotes
| Call_getQuotesByLanguage
| Call_getRandomQuote
| Call_addQuote
| Call_addManyQuotes.

(** The state of the running process: the database, the storage methods
    invoked so far (most recent first), and SQLite's random generator as
    the sequence of values [RANDOM()] yields with the number already
    drawn. *)
Record process : Type := mkProcess {
  db : database;
  calls : list storage_call;
  random : nat -> Z;
  drawn : nat
}.

Definition set_db (d : database) (w : process) : process :=
  mkProcess d (calls w) (random w) (drawn w).

(** Computations that read and write the process state and may throw.
    The state reached when an error is thrown is kept, as in JavaScript. *)
Definition js (A : Type) : Type := process -> outcome A * process.

Definition ret {A} (a : A) : js A := fun w => (Return a, w).
Definition throw {A} (e : jserror) : js A := fun w => (Throw e, w).

Definition bind {A B} (c : js A) (k : A -> js B) : js B :=
  fun w => match c w with
           | (Return a, w') => k a w'
           | (Throw e, w') => (Throw e, w')
           end.

(** [try { body } catch (error) { handler }]. *)
Definition try_catch {A} (body : js A) (handler : jserror -> js A) : js A :=
  fun w => match body w with
           | (Return a, w') => (Return a, w')
           | (Throw e, w') => handler e w'
           end.

Definition lift {A} (o : outcome A) : js A := fun w => (o, w).

Declare Scope js_scope.
Delimit Scope js_scope with js.
Notation "x <- c ;; k" := (bind c (fun x => k))
  (at level 100, c at next level, right associativity) : js_scope.
Notation "c ;;; k" := (bind c (fun _ => k))
  (at level 100, right associativity) : js_scope.
Local Open Scope js_scope.

Definition log_call (c : storage_call) : js unit :=
  fun w => (Return tt, mkProcess (db w) (c :: calls w) (random w) (drawn w)).

Definition read_db : js database := fun w => (Return (db w), w).
Definition write_db (d : database) : js unit := fun w => (Return tt, set_db d w).

(** [n] successive values of [RANDOM()]. *)
Definition draw (n : nat) : js (list Z) :=
  fun w => (Return (map (random w) (seq (drawn w) n)),
            mkProcess (db w) (calls w) (random w) (drawn w + n)%nat).

(* ===================================================================== *)
(** ** better-sqlite3: binding the arguments of [run], [get] and [all] *)
(* ===================================================================== *)

Inductive sqlval : Type :=
| SqlNull
| SqlReal (n : Z)
| SqlText (s : string).

(** The conversion of one JavaScript value to a bound SQLite value:
    numbers, strings and [null]/[undefined] are accepted (as are bigints
    and buffers, which no JSON body holds); anything else is refused. *)
Definition bind_value_from_js (v : jsval) : option sqlval :=
  match v with
  | JNum n => Some (SqlReal n)
  | JStr s => Some (SqlText s)
  | JNull | JUndefined => Some SqlNull
  | JBool _ | JArr _ | JObj _ => None
  end.

(** The parameters of a prepared statement, from index 1: the name of a
    named parameter ([@quote] is [Some "quote"]) or [None] for a [?]. *)
Definition parameters : Type := list (option string).

Record binder : Type := mkBinder {
  anon_index : nat;
  count : nat;
  bound_object : bool;
  bound : list (nat * sqlval)
}.

Definition new_binder : binder := mkBinder 0 0 false [].

Fixpoint leading_named (ps : parameters) : nat :=
  match ps with
  | Some _ :: rest => S (leading_named rest)
  | _ => 0%nat
  end.

(** The next index, after [anon_index], whose parameter has no name;
    past the last parameter no index has one. *)
Definition NextAnonIndex (ps : parameters) (b : binder) : nat :=
  S (anon_index b + leading_named (skipn (anon_index b) ps)).

Definition BindValue (ps : parameters) (v : jsval) (index : nat) (b : binder)
  : outcome binder :=
  match bind_value_from_js v with
  | None =>
      Throw (TypeError
               "SQLite3 can only bind numbers, strings, bigints, buffers, and null")
  | Some sv =>
      if ((1 <=? index) && (index <=? List.length ps))%nat
      then Return (mkBinder (anon_index b) (count b) (bound_object b)
                            ((index, sv) :: bound b))
      else Throw (RangeError "Too many parameter values were provided")
  end.

(** An array argument: each element is bound to the next anonymous
    parameter. *)
Fixpoint BindArray (ps : parameters) (elems : list jsval) (b : binder)
  : outcome binder :=
  match elems with
  | [] => Return b
  | v :: rest =>
      let i := NextAnonIndex ps b in
      match BindValue ps v i
              (mkBinder i (count b) (bound_object b) (bound b)) with
      | Return b' =>
          BindArray ps rest
            (mkBinder (anon_index b') (S (count b')) (bound_object b') (bound b'))
      | Throw e => Throw e
      end
  end.

(** The named parameters of a statement with their indices. *)
Fixpoint bind_map_from (i : nat) (ps : parameters) : list (string * nat) :=
  match ps with
  | [] => []
  | Some name :: rest => (name, i) :: bind_map_from (S i) rest
  | None :: rest => bind_map_from (S i) rest
  end.

Definition bind_map (ps : parameters) : list (string * nat) := bind_map_from 1 ps.

(** A plain-object argument: every named parameter is read from the
    object's own properties. *)
Fixpoint BindObject (ps : parameters) (pairs : list (string * nat))
  (props : list (string * jsval)) (b : binder) : outcome binder :=
  match pairs with
  | [] => Return b
  | (name, index) :: rest =>
      match lookup name props with
      | None =>
          Throw (RangeError
                   ("Missing named parameter " ++ dquote ++ name ++ dquote))
      | Some v =>
          match BindValue ps v index b with
          | Return b' =>
              BindObject ps rest props
                (mkBinder (anon_index b') (S (count b')) (bound_object b') (bound b'))
          | Throw e => Throw e
          end
      end
  end.

Fixpoint BindArgs (ps : parameters) (args : list jsval) (b : binder)
  : outcome binder :=
  match args with
  | [] => Return b
  | JArr elems :: rest =>
      match BindArray ps elems b with
      | Return b' => BindArgs ps rest b'
      | Throw e => Throw e
      end
  | JObj props :: rest =>
      if bound_object b
      then Throw (TypeError
                    "You cannot specify named parameters in two different objects")
      else
        match BindObject ps (bind_map ps) props
                (mkBinder (anon_index b) (count b) true (bound b)) with
        | Return b' => BindArgs ps rest b'
        | Throw e => Throw e
        end
  | v :: rest =>
      let i := NextAnonIndex ps b in
      match BindValue ps v i
              (mkBinder i (count b) (bound_object b) (bound b)) with
      | Return b' =>
          BindArgs ps rest
            (mkBinder (anon_index b') (S (count b')) (bound_object b') (bound b'))
      | Throw e => Throw e
      end
  end.

(** [Binder::Bind]: all the arguments, then the count of bound values
    against the count of parameters. *)
Definition Bind (ps : parameters) (args : list jsval)
  : outcome (list (nat * sqlval)) :=
  match BindArgs ps args new_binder with
  | Throw e => Throw e
  | Return b =>
      if (count b =? List.length ps)%nat then Return (bound b)
      else if (count b <? List.length ps)%nat then
        if negb (bound_object b) && negb (List.length (bind_map ps) =? 0)%nat
        then Throw (TypeError "Missing named parameters")
        else Throw (RangeError "Too few parameter values were provided")
      else Throw (RangeError "Too many parameter values were provided")
  end.

(** The value of parameter [i] in the statement: the last one bound to
    it, NULL when none was. *)
Fixpoint parameter (i : nat) (bs : list (nat * sqlval)) : sqlval :=
  match bs with
  | [] => SqlNull
  | (j, v) :: rest => if (i =? j)%nat then v else parameter i rest
  end.

(* ===================================================================== *)
(** ** [database.js]: schema, prepared statements, [QuotesDB] *)
(* ===================================================================== *)

(** The text SQLite stores for a REAL bound to a [TEXT] column, in its
    decimal form: [1] is stored as ['1.0'].  From 10^17 on SQLite writes
    an exponent (['1.0e+17']), which this text does not follow; no
    statement below reads the digits of a stored number. *)
Definition real_text (n : Z) : string := number_to_string n ++ ".0".

(** Column affinity [TEXT]: a number is converted to its text, a text is
    kept, NULL stays NULL ([None]). *)
Definition text_affinity (v : sqlval) : option string :=
  match v with
  | SqlNull => None
  | SqlReal n => Some (real_text n)
  | SqlText s => Some s
  end.

(** [CHECK (language IN ('fr', 'en'))]. *)
Definition check_language (l : string) : bool :=
  String.eqb l "fr" || String.eqb l "en".

Fixpoint max_rowid (rows : list row) : Z :=
  match rows with
  | [] => 0
  | r :: rest => Z.max (rowid r) (max_rowid rest)
  end.

(** AUTOINCREMENT: one more than the largest rowid ever used. *)
Definition next_rowid (d : database) : Z :=
  Z.max (max_rowid (quotes d)) (sqlite_sequence d) + 1.

(** The three texts of the row an INSERT of the values [q], [a], [l]
    creates on the schema of [init]: the columns have [TEXT] affinity, the
    [NOT NULL] constraints are checked in column order, then the [CHECK]
    constraint. *)
Definition new_row_texts (q a l : sqlval) : outcome (string * string * string) :=
  match text_affinity q with
  | None => Throw (SqliteError "NOT NULL constraint failed: quotes.quote")
  | Some q' =>
      match text_affinity a with
      | None => Throw (SqliteError "NOT NULL constraint failed: quotes.author")
      | Some a' =>
          match text_affinity l with
          | None => Throw (SqliteError "NOT NULL constraint failed: quotes.language")
          | Some l' =>
              if check_language l'
              then Return (q', a', l')
              else Throw (SqliteError
                            ("CHECK constraint failed: language IN (" ++ squote ++
                             "fr" ++ squote ++ ", " ++ squote ++ "en" ++ squote ++ ")"))
          end
      end
  end.

(** The table after a row of the given texts is added: it takes the next
    rowid and goes to the end of the table. *)
Definition append_row (texts : string * string * string) (d : database) : database :=
  let '(q, a, l) := texts in
  mkDb (quotes d ++ [mkRow (next_rowid d) q a l]) (next_rowid d).

(** [INSERT INTO quotes (quote, author, language) VALUES (q, a, l)]. *)
Definition insert_into_quotes (q a l : sqlval) (d : database) : outcome database :=
  match new_row_texts q a l with
  | Return texts => Return (append_row texts d)
  | Throw e => Throw e
  end.

(** [ORDER BY]: a stable insertion sort for the order [leb]. *)
Fixpoint insert_sorted {A} (leb : A -> A -> bool) (x : A) (l : list A) : list A :=
  match l with
  | [] => [x]
  | y :: l' => if leb x y then x :: l else y :: insert_sorted leb x l'
  end.

Fixpoint order_by {A} (leb : A -> A -> bool) (l : list A) : list A :=
  match l with
  | [] => []
  | x :: l' => insert_sorted leb x (order_by leb l')
  end.

(** [ORDER BY author], in the BINARY collation (bytewise). *)
Definition author_leb (r1 r2 : row) : bool := String.leb (author r1) (author r2).

(** [ORDER BY language, author]. *)
Definition language_author_leb (r1 r2 : row) : bool :=
  match String.compare (language r1) (language r2) with
  | Lt => true
  | Gt => false
  | Eq => String.leb (author r1) (author r2)
  end.

(** [WHERE language = ?]: the parameter is compared as a text. *)
Definition language_is (p : sqlval) (r : row) : bool :=
  match text_affinity p with
  | Some l => String.eqb (language r) l
  | None => false
  end.

(** The object better-sqlite3 builds for a row of
    [SELECT quote, author, language]. *)
Definition row_object (r : row) : jsval :=
  JObj [("quote", JStr (quote r)); ("author", JStr (author r));
        ("language", JStr (language r))].

(** The order of two rows in [ORDER BY RANDOM()]: by the key drawn for
    each. *)
Definition key_leb {A} (kr1 kr2 : Z * A) : bool := Z.leb (fst kr1) (fst kr2).

(** [ORDER BY RANDOM() LIMIT 1] over [rows], the i-th row being given the
    i-th key: the rows sorted by key, the first one kept. *)
Definition order_by_random_limit_1 {A} (keys : list Z) (rows : list A) : option A :=
  match order_by key_leb (combine keys rows) with
  | [] => None
  | (_, r) :: _ => Some r
  end.

Module statements.

Definition getAllQuotes_params : parameters := [].
Definition getQuotesByLanguage_params : parameters := [None].
Definition getRandomQuote_params : parameters := [None].
Definition insertQuote_params : parameters := [None; None; None].
Definition insertManyQuotes_params : parameters :=
  [Some "quote"; Some "author"; Some "language"].

(** [getAllQuotes.all(...args)] *)
Definition getAllQuotes_all (args : list jsval) : js (list jsval) :=
  _ <- lift (Bind getAllQuotes_params args) ;;
  d <- read_db ;;
  ret (map row_object (order_by language_author_leb (quotes d))).

(** [getQuotesByLanguage.all(...args)] *)
Definition getQuotesByLanguage_all (args : list jsval) : js (list jsval) :=
  bs <- lift (Bind getQuotesByLanguage_params args) ;;
  d <- read_db ;;
  ret (map row_object
         (order_by author_leb (filter (language_is (parameter 1 bs)) (quotes d)))).

(** [getRandomQuote.get(...args)]: the first row, or [undefined]. *)
Definition getRandomQuote_get (args : list jsval) : js jsval :=
  bs <- lift (Bind getRandomQuote_params args) ;;
  d <- read_db ;;
  let matching := filter (language_is (parameter 1 bs)) (quotes d) in
  keys <- draw (List.length matching) ;;
  ret (match order_by_random_limit_1 keys matching with
       | Some r => row_object r
       | None => JUndefined
       end).

(** [insertQuote.run(...args)] and [insertManyQuotes.run(...args)]: the
    same INSERT, with positional and with named parameters. *)
Definition run_insert (ps : parameters) (args : list jsval) : js unit :=
  bs <- lift (Bind ps args) ;;
  d <- read_db ;;
  d' <- lift (insert_into_quotes (parameter 1 bs) (parameter 2 bs)
                                 (parameter 3 bs) d) ;;
  write_db d'.

Definition insertQuote_run := run_insert insertQuote_params.
Definition insertManyQuotes_run := run_insert insertManyQuotes_params.

End statements.

(** [db.transaction(fn)] called outside a transaction: BEGIN, the
    function, then COMMIT, or ROLLBACK and the error thrown again. *)
Definition transaction {A} (fn : js A) : js A :=
  fun w => match fn w with
           | (Return a, w') => (Return a, w')
           | (Throw e, w') => (Throw e, set_db (db w) w')
           end.

(** [for (const x of xs) body(x)]. *)
Fixpoint for_of {A} (xs : list A) (body : A -> js unit) : js unit :=
  match xs with
  | [] => ret tt
  | x :: rest => body x ;;; for_of rest body
  end.

Definition getAllQuotes : js (list jsval) :=
  log_call Call_getAllQuotes ;;;
  statements.getAllQuotes_all [].

Definition getQuotesByLanguage (language : jsval) : js (list jsval) :=
  log_call Call_getQuotesByLanguage ;;;
  statements.getQuotesByLanguage_all [language].

Definition getRandomQuote (language : jsval) : js jsval :=
  log_call Call_getRandomQuote ;;;
  statements.getRandomQuote_get [language].

Definition addQuote (quote author language : jsval) : js unit :=
  log_call Call_addQuote ;;;
  statements.insertQuote_run [quote; author; language].

(** [addManyQuotes(quotes)], for [quotes] an array of the given elements
    (its only caller passes an array). *)
Definition addManyQuotes (quotes : list jsval) : js jsval :=
  log_call Call_addManyQuotes ;;;
  let insert := fun quotes =>
    transaction (for_of quotes (fun quote => statements.insertManyQuotes_run [quote])) in
  try_catch
    (insert quotes ;;;
     ret (JObj [("success", JBool true);
                ("count", JNum (Z.of_nat (List.length quotes)))]))
    (fun error =>
       ret (JObj [("success", JBool false);
                  ("error", JStr (err_message error))])).

(* ===================================================================== *)
(** ** [server.js]: validators, routes, terminal middlewares *)
(* ===================================================================== *)

(** What the handlers read from outside the process state: three
    environment variables and the clock. *)
Record environment : Type := mkEnv {
  NODE_ENV : option string;
  ENV_PORT : option string;
  API_URL : option string;
  timestamp : string
}.

Record response : Type := mkResponse { status : Z; body : jsval }.

Definition obind {A B} (o : outcome A) (k : A -> outcome B) : outcome B :=
  match o with
  | Return a => k a
  | Throw e => Throw e
  end.

(** [validateLanguage], with [next] the rest of the route. *)
Definition validateLanguage (language : string) (next : js response) : js response :=
  if negb (includes_fr_en (JStr language))
  then ret (mkResponse 400
              (JObj [("error", JStr "Langue non supportée / Unsupported language")]))
  else next.

(** The callback of [quotes.every] in [validateQuotes]:
    [quote.quote && quote.author && quote.language &&
     ['fr', 'en'].includes(quote.language)]. *)
Definition validateQuotes_callback (quote : jsval) : outcome jsval :=
  obind (get_prop quote "quote") (fun q =>
  if truthy q then
    obind (get_prop quote "author") (fun a =>
    if truthy a then
      obind (get_prop quote "language") (fun l =>
      if truthy l then
        obind (get_prop quote "language") (fun l' =>
        Return (JBool (includes_fr_en l')))
      else Return l)
    else Return a)
  else Return q).

(** [Array.prototype.every]: stops at the first falsy result, and at the
    first error thrown by the callback. *)
Fixpoint every (callback : jsval -> outcome jsval) (elems : list jsval)
  : outcome bool :=
  match elems with
  | [] => Return true
  | x :: rest =>
      match callback x with
      | Throw e => Throw e
      | Return v => if truthy v then every callback rest else Return false
      end
  end.

Definition validateQuotes (quotes : jsval) : outcome bool :=
  match quotes with
  | JArr elems => every validateQuotes_callback elems
  | _ => Return false
  end.

(** The elements of a value known to be an array. *)
Definition array_elements (v : jsval) : list jsval :=
  match v with
  | JArr elems => elems
  | _ => []
  end.

Definition js_length (l : list jsval) : jsval := JNum (Z.of_nat (List.length l)).

(** GET /health *)
Definition get_health (env : environment) : js response :=
  ret (mkResponse 200
         (JObj [("status", JStr "OK"); ("timestamp", JStr (timestamp env))])).

(** GET /quotes *)
Definition get_quotes : js response :=
  quotes <- getAllQuotes ;;
  if (List.length quotes =? 0)%nat
  then ret (mkResponse 404
              (JObj [("message",
                      JStr "Aucune citation disponible / No quotes available")]))
  else ret (mkResponse 200
              (JObj [("total", js_length quotes); ("quotes", JArr quotes)])).

Definition invalid_format : jsval :=
  JObj [("error", JStr "Format invalide / Invalid format");
        ("expected",
         JObj [("type", JStr "array");
               ("items", JObj [("quote", JStr "string");
                               ("author", JStr "string");
                               ("language", JStr "fr|en")])])].

(** POST /quotes *)
Definition post_quotes (req_body : jsval) : js response :=
  let quotes := req_body in
  valid <- lift (validateQuotes quotes) ;;
  if negb valid then ret (mkResponse 400 invalid_format)
  else
    result <- addManyQuotes (array_elements quotes) ;;
    success <- lift (get_prop result "success") ;;
    count <- lift (get_prop result "count") ;;
    error <- lift (get_prop result "error") ;;
    ret (mkResponse (if truthy success then 200 else 500)
           (JObj ([("success", success);
                   ("message",
                    JStr (if truthy success
                          then to_string count ++ " citations importées / quotes imported"
                          else "Échec de l" ++ squote ++ "import / Import failed"))]
                  ++ (if truthy error then [("error", error)] else [])))).

Definition none_in_language (language : string) : jsval :=
  JObj [("message",
         JStr ("Aucune citation disponible en " ++ language ++
               " / No quotes available in " ++ language))].

(** GET /:language/quotes *)
Definition get_language_quotes (language : string) : js response :=
  validateLanguage language (
    quotes <- getQuotesByLanguage (JStr language) ;;
    if (List.length quotes =? 0)%nat
    then ret (mkResponse 404 (none_in_language language))
    else ret (mkResponse 200
                (JObj [("language", JStr language);
                       ("total", js_length quotes);
                       ("quotes", JArr quotes)]))).

(** GET /:language/quote *)
Definition get_language_quote (language : string) : js response :=
  validateLanguage language (
    quote <- getRandomQuote (JStr language) ;;
    if negb (truthy quote)
    then ret (mkResponse 404 (none_in_language language))
    else ret (mkResponse 200 quote)).

(** [const { k } = v]: destructuring [null] or [undefined] throws. *)
Definition destructure (v : jsval) (k : string) : outcome jsval :=
  match v with
  | JUndefined | JNull =>
      Throw (TypeError ("Cannot destructure property " ++ squote ++ k ++ squote ++
                        " of " ++ squote ++ "req.body" ++ squote ++
                        " as it is " ++ type_name v ++ "."))
  | _ => get_prop v k
  end.

(** POST /:language/quote *)
Definition post_language_quote (language : string) (req_body : jsval) : js response :=
  validateLanguage language (
    quote <- lift (destructure req_body "quote") ;;
    author <- lift (destructure req_body "author") ;;
    if negb (truthy quote) || negb (truthy author)
    then ret (mkResponse 400
                (JObj [("error",
                        JStr "Champs requis manquants / Missing required fields");
                       ("required", JArr [JStr "quote"; JStr "author"])]))
    else
      try_catch
        (addQuote quote author (JStr language) ;;;
         ret (mkResponse 201
                (JObj [("message",
                        JStr "Citation ajoutée avec succès / Quote added successfully");
                       ("quote", JObj [("quote", quote); ("author", author);
                                       ("language", JStr language)])])))
        (fun error =>
           ret (mkResponse 500 (JObj [("error", JStr (err_message error))])))).

(** The 404 handler. *)
Definition not_found : js response :=
  ret (mkResponse 404 (JObj [("error", JStr "Route non trouvée / Route not found")])).

(** The global error handler. *)
Definition error_handler (env : environment) (err : jserror) : response :=
  mkResponse 500
    (JObj (("error", JStr "Erreur interne du serveur / Internal server error")
           :: (match NODE_ENV env with
               | Some mode =>
                   if String.eqb mode "development"
                   then [("details", JStr (err_message err))]
                   else []
               | None => []
               end))).

(** [process.env.PORT || 3000] *)
Definition PORT (env : environment) : jsval :=
  match ENV_PORT env with
  | Some p => if truthy (JStr p) then JStr p else JNum 3000
  | None => JNum 3000
  end.

Definition endpoint (path method description : string)
  (more : list (string * jsval)) : jsval :=
  JObj ([("path", JStr path); ("method", JStr method);
         ("description", JStr description)] ++ more).

(** GET /documentation *)
Definition get_documentation (env : environment) : js response :=
  let fr_en := JObj [("language", JStr "fr|en")] in
  ret (mkResponse 200
    (JObj [
      ("name", JStr "Quotes API");
      ("version", JStr "1.0.0");
      ("description", JStr "API RESTful multilingue pour la gestion de citations");
      ("baseUrl",
       match NODE_ENV env with
       | Some "production" =>
           match API_URL env with Some u => JStr u | None => JUndefined end
       | _ => JStr ("http://localhost:" ++ to_string (PORT env))
       end);
      ("endpoints", JObj [
        ("health",
         endpoint "/health" "GET" ("Vérifie l" ++ squote ++ "état de l" ++ squote ++ "API") []);
        ("quotes", JObj [
          ("getAllQuotes",
           endpoint "/quotes" "GET" "Récupère toutes les citations"
             [("response", JObj [("type", JStr "QuotesResponse")])]);
          ("bulkImport",
           endpoint "/quotes" "POST" "Import en masse de citations"
             [("requestBody", JObj [("type", JStr "Array<Quote>")])]);
          ("getByLanguage",
           endpoint "/:language/quotes" "GET"
             "Récupère toutes les citations dans une langue spécifique"
             [("parameters", fr_en)]);
          ("getRandom",
           endpoint "/:language/quote" "GET" "Récupère une citation aléatoire"
             [("parameters", fr_en)]);
          ("addNew",
           endpoint "/:language/quote" "POST" "Ajoute une nouvelle citation"
             [("parameters", fr_en);
              ("requestBody", JObj [("type", JStr "NewQuote")])])])]);
      ("schemas", JObj [
        ("Quote", JObj [
          ("type", JStr "object");
          ("required", JArr [JStr "quote"; JStr "author"; JStr "language"]);
          ("properties", JObj [
            ("quote", JObj [("type", JStr "string")]);
            ("author", JObj [("type", JStr "string")]);
            ("language", JObj [("type", JStr "string");
                               ("enum", JArr [JStr "fr"; JStr "en"])])])]);
        ("QuotesResponse", JObj [
          ("type", JStr "object");
          ("properties", JObj [
            ("total", JObj [("type", JStr "number")]);
            ("quotes", JObj [("type", JStr "Array<Quote>")])])])])])).

(** A request as the application receives it: the route it matches, with
    the [language] path parameter and, for the two POST routes, the JSON
    value of the body that was sent ([undefined] when the request has no
    JSON body).  [Unparsable] is a request, on any path, whose body is not
    well-formed JSON, with the message of [JSON.parse]. *)
Inductive request : Type :=
| GET_health
| GET_documentation
| GET_quotes
| POST_quotes (req_body : jsval)
| GET_language_quotes (language : string)
| GET_language_quote (language : string)
| POST_language_quote (language : string) (req_body : jsval)
| Unmatched
| Unparsable (message : string).

(** The first character of the text of a JSON scalar. *)
Definition first_char (v : jsval) : string :=
  match v with
  | JNull => "n"
  | JBool true => "t"
  | JBool false => "f"
  | JNum n => substring 0 1 (number_to_string n)
  | JStr _ => dquote
  | _ => ""
  end.

(** [app.use(express.json())], mounted before every route.  The parser is
    strict: a body that is a JSON object or array becomes [req.body], a
    body that is another JSON value is refused with a [SyntaxError], and
    without a body [req.body] stays [undefined].  The message of the
    refusal is the one of [JSON.parse], whose wording depends on the
    version of the runtime; it is visible only in the [details] field of
    the error handler in development mode, and no statement below depends
    on its text. *)
Definition express_json (sent : jsval) : outcome jsval :=
  match sent with
  | JObj _ | JArr _ | JUndefined => Return sent
  | JNull | JBool _ | JNum _ | JStr _ =>
      Throw (SyntaxError ("Unexpected token " ++ first_char sent ++
                          " in JSON at position 0"))
  end.

(** The chain a request goes through: the body parser, then the route
    that matches. *)
Definition route (env : environment) (r : request) : js response :=
  match r with
  | GET_health => get_health env
  | GET_documentation => get_documentation env
  | GET_quotes => get_quotes
  | POST_quotes sent =>
      req_body <- lift (express_json sent) ;;
      post_quotes req_body
  | GET_language_quotes language => get_language_quotes language
  | GET_language_quote language => get_language_quote language
  | POST_language_quote language sent =>
      req_body <- lift (express_json sent) ;;
      post_language_quote language req_body
  | Unmatched => not_found
  | Unparsable message => throw (SyntaxError message)
  end.

(** The application: the chain above, and the global error handler for
    whatever the parser or the route throws. *)
Definition app (env : environment) (r : request) (w : process) : response * process :=
  match route env r w with
  | (Return res, w') => (res, w')
  | (Throw err, w') => (error_handler env err, w')
  end.

(** A sequence of requests served one after the other. *)
Fixpoint serve (env : environment) (rs : list request) (w : process) : process :=
  match rs with
  | [] => w
  | r :: rest => serve env rest (snd (app env r w))
  end.

(** The process at startup on a new database file. *)
Definition start (random : nat -> Z) : process :=
  mkProcess empty_database [] random 0.

(* ===================================================================== *)
(** ** Vocabulary of the statements *)
(* ===================================================================== *)

(** What [insertManyQuotes.run(record)] would store for [record]: the
    three texts of the new row, or the error the binder or a constraint
    raises.  It does not depend on the table. *)
Definition record_texts (record : jsval) : outcome (string * string * string) :=
  match Bind statements.insertManyQuotes_params [record] with
  | Return bs => new_row_texts (parameter 1 bs) (parameter 2 bs) (parameter 3 bs)
  | Throw e => Throw e
  end.

Definition texts_of (r : row) : string * string * string :=
  (quote r, author r, language r).

(** The lexical order on texts, bytewise: [String_as_OT.lt], which
    [String.compare] decides. *)
Definition text_le (s1 s2 : string) : Prop :=
  String_as_OT.lt s1 s2 \/ s1 = s2.

(** Ascending by [author]. *)
Definition by_author (r1 r2 : row) : Prop := text_le (author r1) (author r2).

(** Ascending by [(language, author)], lexicographically. *)
Definition by_language_author (r1 r2 : row) : Prop :=
  String_as_OT.lt (language r1) (language r2) \/
  (language r1 = language r2 /\ text_le (author r1) (author r2)).


Definition listing_response (prefix : list (string * jsval)) (none : jsval)
  (rows : list jsval) : response :=
  match rows with
  | [] => mkResponse 404 none
  | _ :: _ =>
      mkResponse 200
        (JObj (prefix ++ [("total", JNum (Z.of_nat (List.length rows)));
                          ("quotes", JArr rows)]))
  end.

(** The language of a row is one of the two codes. *)
Definition language_ok (r : row) : Prop := In (language r) ["fr"; "en"].

(** The invariant of the data model on one row. *)
Definition row_ok (r : row) : Prop :=
  In (language r) ["fr"; "en"] /\ quote r <> "" /\ author r <> "".

(** A request that is not a single insert with an array as [quote] or as
    [author]. *)
Definition no_array_field (r : request) : Prop :=
  match r with
  | POST_language_quote _ req_body =>
      (forall elems, destructure req_body "quote" <> Return (JArr elems)) /\
      (forall elems, destructure req_body "author" <> Return (JArr elems))
  | _ => True
  end.

(** The computation [c] keeps every row of the table in [P]. *)
Definition preserves {A} (P : row -> Prop) (c : js A) : Prop :=
  forall w, Forall P (quotes (db w)) -> Forall P (quotes (db (snd (c w)))).

Definition internal_server_error : string :=
  "Erreur interne du serveur / Internal server error".

(** A 500 body that carries only the generic message, with a [details]
    field at most outside production. *)
Definition generic_500_body (env : environment) (b : jsval) : Prop :=
  b = JObj [("error", JStr internal_server_error)] \/
  (NODE_ENV env <> Some "production" /\
   exists d, b = JObj [("error", JStr internal_server_error); ("details", d)]).

(** The 500 body of the global error handler. *)
Definition error_handler_body (env : environment) (err : jserror) : jsval :=
  if match NODE_ENV env with
     | Some mode => String.eqb mode "development"
     | None => false
     end
  then JObj [("error", JStr internal_server_error);
             ("details", JStr (err_message err))]
  else JObj [("error", JStr internal_server_error)].

(** The 500 body of POST /quotes. *)
Definition import_failed_body (msg : string) : jsval :=
  JObj ([("success", JBool false);
         ("message", JStr ("Échec de l" ++ squote ++ "import / Import failed"))]
        ++ (if truthy (JStr msg) then [("error", JStr msg)] else [])).




(** The position, among [n] rows, of the row [ORDER BY RANDOM() LIMIT 1]
    keeps. *)
Definition chosen_position (keys : list Z) (n : nat) : option nat :=
  order_by_random_limit_1 keys (seq 0 n).


(** An environment and a process state for the examples. *)
Definition example_env : environment :=
  mkEnv (Some "production") None None "2024-01-01T00:00:00.000Z".

Definition example_start : process := start (fun i => Z.of_nat i).

(** The state after two quotes in English were added. *)
Definition example_two_quotes : process :=
  serve example_env
    [POST_language_quote "en"
       (JObj [("quote", JStr "Stay hungry"); ("author", JStr "Jobs")]);
     POST_language_quote "en"
       (JObj [("quote", JStr "Be yourself"); ("author", JStr "Wilde")])]
    example_start.

(** A single insert whose quote is [true]: a value the binder refuses. *)
Definition example_unbindable : request :=
  POST_language_quote "fr" (JObj [("quote", JBool true); ("author", JStr "a")]).

(** The record a listing shows for a row of the given texts. *)
Definition record (q a l : string) : jsval :=
  JObj [("quote", JStr q); ("author", JStr a); ("language", JStr l)].

Definition quote_added (quote author : jsval) (language : string) : response :=
  mkResponse 201
    (JObj [("message",
            JStr "Citation ajoutée avec succès / Quote added successfully");
           ("quote", JObj [("quote", quote); ("author", author);
                           ("language", JStr language)])]).

(** The value of the own property [k] of an object, [undefined] when it
    has none. *)
Definition own_field (k : string) (props : list (string * jsval)) : jsval :=
  match lookup k props with
  | Some v => v
  | None => JUndefined
  end.

(** An element [validateQuotes] lets through: an object whose [quote] and
    [author] are truthy and whose [language] is the string [fr] or [en]. *)
Definition accepted_element (e : jsval) : Prop :=
  exists props l,
    e = JObj props /\
    truthy (own_field "quote" props) = true /\
    truthy (own_field "author" props) = true /\
    own_field "language" props = JStr l /\ In l ["fr"; "en"].

(** A record whose three fields are texts: what the documentation of the
    API calls a [Quote]. *)
Definition text_record (e : jsval) (texts : string * string * string) : Prop :=
  exists props,
    e = JObj props /\
    lookup "quote" props = Some (JStr (fst (fst texts))) /\
    lookup "author" props = Some (JStr (snd (fst texts))) /\
    lookup "language" props = Some (JStr (snd texts)).

(** Texts that satisfy the data model. *)
Definition valid_texts (texts : string * string * string) : Prop :=
  fst (fst texts) <> "" /\ snd (fst texts) <> "" /\ In (snd texts) ["fr"; "en"].

(** A record with a [quote] or an [author] that better-sqlite3 does not
    bind: a boolean, an array or an object. *)
Definition unbindable_record (e : jsval) : Prop :=
  exists props,
    e = JObj props /\
    (bind_value_from_js (own_field "quote" props) = None \/
     bind_value_from_js (own_field "author" props) = None).

Definition cannot_bind : string :=
  "SQLite3 can only bind numbers, strings, bigints, buffers, and null".

(** The 200 body of POST /quotes for [n] records. *)
Definition imported_body (n : nat) : jsval :=
  JObj [("success", JBool true);
        ("message",
         JStr (number_to_string (Z.of_nat n) ++
               " citations importées / quotes imported"))].

(** The database after rows of the given texts are added one after the
    other. *)
Definition append_rows (ts : list (string * string * string)) (d : database)
  : database :=
  fold_left (fun d t => append_row t d) ts d.

(** The computation [c] does nothing to the database but add rows. *)
Definition appends {A} (c : js A) : Prop :=
  forall w, exists ts, db (snd (c w)) = append_rows ts (db w).


(** The message of SQLite when the [CHECK] constraint fails. *)
Definition check_failed : string :=
  "CHECK constraint failed: language IN (" ++ squote ++ "fr" ++ squote ++
  ", " ++ squote ++ "en" ++ squote ++ ")".

(** The process after [addQuote] ran, with the database it left. *)
Definition after_addQuote (d : database) (w : process) : process :=
  mkProcess d (Call_addQuote :: calls w) (random w) (drawn w).

Definition missing_fields : response :=
  mkResponse 400
    (JObj [("error", JStr "Champs requis manquants / Missing required fields");
           ("required", JArr [JStr "quote"; JStr "author"])]).

(** What [const { quote, author } = req.body] throws when the request had
    no body and [req.body] is [undefined]. *)
Definition destructure_undefined : jserror :=
  TypeError ("Cannot destructure property " ++ squote ++ "quote" ++ squote ++
             " of " ++ squote ++ "req.body" ++ squote ++
             " as it is undefined.").

(** A single insert whose body has an array in a field the handler does
    not read. *)
Definition example_tagged : request :=
  POST_language_quote "en"
    (JObj [("quote", JStr "Q3"); ("author", JStr "A3"); ("tags", JArr [])]).

(** Two records for the examples, as a payload holds them and as texts. *)
Definition example_records : list jsval :=
  [record "Q1" "A1" "en"; record "Q2" "A2" "fr"].

Definition example_texts : list (string * string * string) :=
  [("Q1", "A1", "en"); ("Q2", "A2", "fr")].

(** A payload that passes the validation with a quote that is [true]. *)
Definition example_unbindable_records : list jsval :=
  [record "Q1" "A1" "en";
   JObj [("quote", JBool true); ("author", JStr "A2"); ("language", JStr "fr")]].

(** Membership in a list of status codes. *)
Ltac in_codes := simpl; repeat (first [left; reflexivity | right]).

(* ===================================================================== *)
(** * Properties *)
(* ===================================================================== *)

(** ** The bulk insert is all or nothing *)

Section BulkInsert.

Lemma insertManyQuotes_run_record (record : jsval) (w : process) :
  statements.insertManyQuotes_run [record] w =
  match record_texts record with
  | Return texts => (Return tt, set_db (append_row texts (db w)) w)
  | Throw e => (Throw e, w)
  end.
Proof.
  unfold statements.insertManyQuotes_run, statements.run_insert, record_texts,
    bind, lift, read_db, write_db, insert_into_quotes.
  destruct (Bind statements.insertManyQuotes_params [record]) as [bs|e];
    [|reflexivity].
  destruct (new_row_texts _ _ _); reflexivity.
Qed.

Lemma texts_of_append_row (texts : string * string * string) (d : database) :
  exists r, quotes (append_row texts d) = (quotes d ++ [r])%list /\ texts_of r = texts.
Proof.
  destruct texts as [[q a] l]. simpl.
  exists (mkRow (next_rowid d) q a l). split; reflexivity.
Qed.

Lemma for_of_insertManyQuotes_cons (record : jsval) (rest : list jsval)
  (w : process) :
  for_of (record :: rest) (fun quote => statements.insertManyQuotes_run [quote]) w =
  match record_texts record with
  | Return texts =>
      for_of rest (fun quote => statements.insertManyQuotes_run [quote])
        (set_db (append_row texts (db w)) w)
  | Throw e => (Throw e, w)
  end.
Proof.
  simpl for_of. unfold bind at 1. rewrite insertManyQuotes_run_record.
  destruct (record_texts record); reflexivity.
Qed.

(** The loop of the transaction body: it either runs to its end, having
    added one row per record in order, or stops at the first record the
    statement refuses, with that record's error. *)
Lemma for_of_insertManyQuotes (records : list jsval) :
  forall w : process,
    (exists rows w',
        for_of records (fun quote => statements.insertManyQuotes_run [quote]) w
        = (Return tt, w') /\
        Forall2 (fun record r => record_texts record = Return (texts_of r))
                records rows /\
        quotes (db w') = (quotes (db w) ++ rows)%list /\
        calls w' = calls w /\ random w' = random w /\ drawn w' = drawn w)
    \/
    (exists before record after e w',
        for_of records (fun quote => statements.insertManyQuotes_run [quote]) w
        = (Throw e, w') /\
        records = (before ++ record :: after)%list /\
        Forall (fun r => exists t, record_texts r = Return t) before /\
        record_texts record = Throw e /\
        calls w' = calls w /\ random w' = random w /\ drawn w' = drawn w).
Proof.
  induction records as [|record rest IH]; intros w.
  - left. exists [], w. simpl. rewrite app_nil_r. repeat split; constructor.
  - rewrite for_of_insertManyQuotes_cons.
    destruct (record_texts record) as [texts|e] eqn:Hrec.
    + destruct (texts_of_append_row texts (db w)) as (r & Hq & Ht).
      destruct (IH (set_db (append_row texts (db w)) w))
        as [(rows & w' & Hrun & Hall & Hrows & Hc & Hr & Hd)
           |(before & bad & after & e & w' & Hrun & Hsplit & Hpre & Hbad & Hc & Hr & Hd)].
      * left. exists (r :: rows), w'. rewrite Hrun.
        repeat split; auto.
        -- constructor; [rewrite Ht; exact Hrec | exact Hall].
        -- rewrite Hrows. simpl. rewrite Hq, <- app_assoc. reflexivity.
      * right. exists (record :: before), bad, after, e, w'. rewrite Hrun.
        repeat split; auto.
        -- rewrite Hsplit. reflexivity.
        -- constructor; [exists texts; exact Hrec | exact Hpre].
    + right. exists [], record, rest, e, w.
      repeat split; auto.
Qed.

End BulkInsert.

(** C1. [addManyQuotes] is atomic.  For every sequence of records and
    every state, the call returns (it never throws) and one of two things
    happened.  Either every record was persisted: the table is the old
    table followed by one new row per record, in order, each holding the
    texts the insert statement stores for its record, and the result is
    [{ success: true, count }] with [count] the number of records.  Or no
    record was persisted: the database is exactly the one before the call,
    and the result is [{ success: false, error }] where [error] is the
    message of the error raised by the first record the statement
    refused. *)
Theorem addManyQuotes_atomic (records : list jsval) (w : process) :
  (exists rows w',
      addManyQuotes records w
      = (Return (JObj [("success", JBool true);
                       ("count", JNum (Z.of_nat (List.length records)))]), w') /\
      Forall2 (fun record r => record_texts record = Return (texts_of r))
              records rows /\
      quotes (db w') = (quotes (db w) ++ rows)%list)
  \/
  (exists before record after e w',
      addManyQuotes records w
      = (Return (JObj [("success", JBool false);
                       ("error", JStr (err_message e))]), w') /\
      records = (before ++ record :: after)%list /\
      Forall (fun r => exists t, record_texts r = Return t) before /\
      record_texts record = Throw e /\
      db w' = db w).
Proof.
  unfold addManyQuotes, try_catch, transaction, bind, log_call, ret.
  match goal with
  | |- context [for_of records ?body ?w0] =>
      destruct (for_of_insertManyQuotes records w0)
        as [(rows & w' & Hrun & Hall & Hrows & _)
           |(before & bad & after & e & w' & Hrun & Hsplit & Hpre & Hbad & _)];
      rewrite Hrun
  end.
  - left. exists rows, w'. repeat split; auto.
  - right. exists before, bad, after, e. eexists. repeat split; eauto.
Qed.

(** ** The listings are sorted *)

Section OrderBy.

Context {A : Type} (leb : A -> A -> bool).
Hypothesis leb_total : forall x y, leb x y = true \/ leb y x = true.
Hypothesis leb_trans :
  forall x y z, leb x y = true -> leb y z = true -> leb x z = true.

Lemma insert_sorted_perm (x : A) (l : list A) :
  Permutation (insert_sorted leb x l) (x :: l).
Proof.
  induction l as [|y l IH]; simpl.
  - apply Permutation_refl.
  - destruct (leb x y).
    + apply Permutation_refl.
    + apply Permutation_trans with (y :: x :: l).
      * apply perm_skip, IH.
      * apply perm_swap.
Qed.

Lemma order_by_perm (l : list A) : Permutation (order_by leb l) l.
Proof.
  induction l as [|x l IH]; simpl.
  - apply perm_nil.
  - apply Permutation_trans with (x :: order_by leb l).
    + apply insert_sorted_perm.
    + apply perm_skip, IH.
Qed.

Lemma order_by_length (l : list A) :
  List.length (order_by leb l) = List.length l.
Proof. apply Permutation_length, order_by_perm. Qed.

Lemma insert_sorted_sorted (x : A) (l : list A) :
  StronglySorted (fun a b => leb a b = true) l ->
  StronglySorted (fun a b => leb a b = true) (insert_sorted leb x l).
Proof.
  induction 1 as [|y l Hs IH Hall]; simpl.
  - constructor; constructor.
  - destruct (leb x y) eqn:Hxy.
    + constructor.
      * constructor; assumption.
      * constructor; [exact Hxy|].
        eapply Forall_impl; [|exact Hall].
        intros z Hyz. exact (leb_trans _ _ _ Hxy Hyz).
    + constructor; [exact IH|].
      assert (Hyx : leb y x = true)
        by (destruct (leb_total x y) as [H|H]; [congruence|exact H]).
      eapply Permutation_Forall.
      * apply Permutation_sym, insert_sorted_perm.
      * constructor; assumption.
Qed.

Lemma order_by_sorted (l : list A) :
  StronglySorted (fun a b => leb a b = true) (order_by leb l).
Proof.
  induction l as [|x l IH]; simpl.
  - constructor.
  - apply insert_sorted_sorted, IH.
Qed.

End OrderBy.

Section LexicalOrder.

Lemma compare_Gt_lt (s1 s2 : string) :
  String.compare s1 s2 = Gt <-> String_as_OT.lt s2 s1.
Proof.
  rewrite <- String_as_OT.cmp_lt. unfold String_as_OT.cmp.
  rewrite (String.compare_antisym s2 s1).
  destruct (String.compare s1 s2); simpl; split; congruence.
Qed.

Lemma String_leb_le (s1 s2 : string) :
  String.leb s1 s2 = true <-> text_le s1 s2.
Proof.
  unfold String.leb, text_le.
  destruct (String.compare s1 s2) eqn:Hc.
  - apply String_as_OT.cmp_eq in Hc. tauto.
  - apply String_as_OT.cmp_lt in Hc. tauto.
  - split; [discriminate|].
    apply compare_Gt_lt in Hc.
    intros [Hlt|Heq].
    + exfalso. eapply String_as_OT.lt_not_eq.
      * eapply String_as_OT.lt_trans; eassumption.
      * reflexivity.
    + subst. exfalso. eapply String_as_OT.lt_not_eq; [exact Hc|reflexivity].
Qed.

Lemma text_le_trans (s1 s2 s3 : string) :
  text_le s1 s2 -> text_le s2 s3 -> text_le s1 s3.
Proof.
  intros [H12 | ->] [H23 | ->]; unfold text_le; auto.
  left. eapply String_as_OT.lt_trans; eassumption.
Qed.

Lemma author_leb_by_author (r1 r2 : row) :
  author_leb r1 r2 = true <-> by_author r1 r2.
Proof. apply String_leb_le. Qed.

Lemma language_author_leb_by (r1 r2 : row) :
  language_author_leb r1 r2 = true <-> by_language_author r1 r2.
Proof.
  unfold language_author_leb, by_language_author.
  destruct (String.compare (language r1) (language r2)) eqn:Hc.
  - apply String_as_OT.cmp_eq in Hc. rewrite String_leb_le. split.
    + auto.
    + intros [Hlt|[_ H]]; [|exact H].
      rewrite Hc in Hlt. exfalso.
      eapply String_as_OT.lt_not_eq; [exact Hlt|reflexivity].
  - apply String_as_OT.cmp_lt in Hc. tauto.
  - apply compare_Gt_lt in Hc. split; [discriminate|].
    intros [Hlt|[Heq _]]; exfalso.
    + eapply String_as_OT.lt_not_eq;
        [eapply String_as_OT.lt_trans; eassumption|reflexivity].
    + rewrite Heq in Hc.
      eapply String_as_OT.lt_not_eq; [exact Hc|reflexivity].
Qed.

Lemma author_leb_total (r1 r2 : row) :
  author_leb r1 r2 = true \/ author_leb r2 r1 = true.
Proof. apply String.leb_total. Qed.

Lemma author_leb_trans (r1 r2 r3 : row) :
  author_leb r1 r2 = true -> author_leb r2 r3 = true -> author_leb r1 r3 = true.
Proof.
  rewrite !author_leb_by_author. apply text_le_trans.
Qed.

Lemma language_author_leb_total (r1 r2 : row) :
  language_author_leb r1 r2 = true \/ language_author_leb r2 r1 = true.
Proof.
  unfold language_author_leb.
  rewrite (String.compare_antisym (language r1) (language r2)).
  destruct (String.compare (language r2) (language r1)); simpl; auto.
  apply String.leb_total.
Qed.

Lemma language_author_leb_trans (r1 r2 r3 : row) :
  language_author_leb r1 r2 = true -> language_author_leb r2 r3 = true ->
  language_author_leb r1 r3 = true.
Proof.
  rewrite !language_author_leb_by. unfold by_language_author.
  intros [H12|[E12 A12]] [H23|[E23 A23]].
  - left. eapply String_as_OT.lt_trans; eassumption.
  - left. rewrite <- E23. exact H12.
  - left. rewrite E12. exact H23.
  - right. split; [congruence|]. eapply text_le_trans; eassumption.
Qed.

End LexicalOrder.

Lemma StronglySorted_weaken {A : Type} (R S : A -> A -> Prop) (l : list A) :
  (forall x y, R x y -> S x y) -> StronglySorted R l -> StronglySorted S l.
Proof.
  intros HRS. induction 1 as [|x l Hs IH Hall]; constructor.
  - exact IH.
  - eapply Forall_impl; [|exact Hall]. intros y. apply HRS.
Qed.

Lemma getAllQuotes_run (w : process) :
  getAllQuotes w =
  (Return (map row_object (order_by language_author_leb (quotes (db w)))),
   mkProcess (db w) (Call_getAllQuotes :: calls w) (random w) (drawn w)).
Proof. reflexivity. Qed.

Lemma getQuotesByLanguage_run (l : string) (w : process) :
  getQuotesByLanguage (JStr l) w =
  (Return (map row_object
             (order_by author_leb
                (filter (fun r => String.eqb (language r) l) (quotes (db w))))),
   mkProcess (db w) (Call_getQuotesByLanguage :: calls w) (random w) (drawn w)).
Proof. reflexivity. Qed.

(** C6. For every state of the table, list-all returns every row (the
    result is a permutation of the table) in ascending lexicographic order
    of [(language, author)], and list-by-language returns exactly the rows
    whose language is the given one, in ascending order of [author]; the
    order on texts is the bytewise lexical order.  Both leave the database
    as it is. *)
Theorem listings_sorted (l : string) (w : process) :
  (exists rows w',
      getAllQuotes w = (Return (map row_object rows), w') /\
      Permutation rows (quotes (db w)) /\
      StronglySorted by_language_author rows /\
      db w' = db w)
  /\
  (exists rows w',
      getQuotesByLanguage (JStr l) w = (Return (map row_object rows), w') /\
      Permutation rows
        (filter (fun r => String.eqb (language r) l) (quotes (db w))) /\
      StronglySorted by_author rows /\
      db w' = db w).
Proof.
  split.
  - rewrite getAllQuotes_run. eexists _, _. split; [reflexivity|].
    split; [apply order_by_perm|]. split; [|reflexivity].
    eapply StronglySorted_weaken.
    + intros x y. apply language_author_leb_by.
    + apply order_by_sorted.
      * exact language_author_leb_total.
      * exact language_author_leb_trans.
  - rewrite getQuotesByLanguage_run. eexists _, _. split; [reflexivity|].
    split; [apply order_by_perm|]. split; [|reflexivity].
    eapply StronglySorted_weaken.
    + intros x y. apply author_leb_by_author.
    + apply order_by_sorted.
      * exact author_leb_total.
      * exact author_leb_trans.
Qed.

(** ** Requests the validators stop *)

Lemma includes_fr_en_In (language : string) :
  includes_fr_en (JStr language) = true <-> In language ["fr"; "en"].
Proof.
  simpl. rewrite orb_true_iff, !String.eqb_eq.
  intuition congruence.
Qed.


Lemma validateLanguage_accept (language : string) (next : js response) :
  In language ["fr"; "en"] -> validateLanguage language next = next.
Proof.
  intros Hin. unfold validateLanguage.
  apply includes_fr_en_In in Hin. rewrite Hin. reflexivity.
Qed.

Lemma express_json_cases (sent : jsval) :
  express_json sent = Return sent \/ exists e, express_json sent = Throw e.
Proof.
  destruct sent; simpl; auto; right; eexists; reflexivity.
Qed.


Lemma route_POST_quotes_parsed (env : environment) (sent : jsval) :
  express_json sent = Return sent ->
  route env (POST_quotes sent) = post_quotes sent.
Proof.
  intros H. cbn [route]. rewrite H. reflexivity.
Qed.

Lemma route_POST_language_quote_parsed (env : environment) (language : string)
  (sent : jsval) :
  express_json sent = Return sent ->
  route env (POST_language_quote language sent) = post_language_quote language sent.
Proof.
  intros H. cbn [route]. rewrite H. reflexivity.
Qed.

Lemma route_POST_quotes_refused (env : environment) (sent : jsval)
  (e : jserror) (w : process) :
  express_json sent = Throw e ->
  route env (POST_quotes sent) w = (Throw e, w).
Proof.
  intros H. cbn [route]. unfold bind, lift. rewrite H. reflexivity.
Qed.

Lemma route_POST_language_quote_refused (env : environment) (language : string)
  (sent : jsval) (e : jserror) (w : process) :
  express_json sent = Throw e ->
  route env (POST_language_quote language sent) w = (Throw e, w).
Proof.
  intros H. cbn [route]. unfold bind, lift. rewrite H. reflexivity.
Qed.

Lemma error_handler_status (env : environment) (err : jserror) :
  status (error_handler env err) = 500.
Proof. reflexivity. Qed.




(** ** Listings: 404 when nothing matches, a count otherwise *)

(** C8. Both listing routes run their query, which always returns, and
    answer from its rows: when the query matched no row the response is
    404 with a message (not 200 with an empty list); when it matched at
    least one the response is 200 and carries the rows together with
    their count ([total]), preceded by the language on the
    language-scoped route. *)
Theorem listing_404_or_count (env : environment) (language : string)
  (w : process) :
  In language ["fr"; "en"] ->
  (exists rows w',
      getAllQuotes w = (Return rows, w') /\
      app env GET_quotes w =
      (listing_response []
         (JObj [("message",
                 JStr "Aucune citation disponible / No quotes available")])
         rows, w'))
  /\
  (exists rows w',
      getQuotesByLanguage (JStr language) w = (Return rows, w') /\
      app env (GET_language_quotes language) w =
      (listing_response [("language", JStr language)]
         (none_in_language language) rows, w')).
Proof.
  intros Hin. split.
  - rewrite getAllQuotes_run. eexists _, _. split; [reflexivity|].
    unfold app, route, get_quotes, bind. rewrite getAllQuotes_run.
    destruct (map row_object _); reflexivity.
  - rewrite getQuotesByLanguage_run. eexists _, _. split; [reflexivity|].
    unfold app, route, get_language_quotes.
    rewrite validateLanguage_accept by exact Hin.
    unfold bind. rewrite getQuotesByLanguage_run.
    destruct (map row_object _); reflexivity.
Qed.

Lemma listing_404_or_count_witness :
  In "en" ["fr"; "en"] /\
  exists rows w',
    getQuotesByLanguage (JStr "en") example_start = (Return rows, w') /\
    app example_env (GET_language_quotes "en") example_start =
    (listing_response [("language", JStr "en")] (none_in_language "en") rows, w').
Proof.
  assert (Hin : In "en" ["fr"; "en"]) by (simpl; auto).
  split; [exact Hin|].
  apply (listing_404_or_count example_env "en" example_start Hin).
Defined.

(** ** The empty bulk import *)

(** C10. POST /quotes with the empty array passes [validateQuotes] (the
    check over the elements is vacuously true), calls [addManyQuotes],
    whose transaction inserts nothing, and answers 200 with a message
    reporting a count of 0; the database is unchanged. *)
Theorem empty_bulk_import (env : environment) (w : process) :
  validateQuotes (JArr []) = Return true /\
  exists w',
    app env (POST_quotes (JArr [])) w =
    (mkResponse 200
       (JObj [("success", JBool true);
              ("message", JStr "0 citations importées / quotes imported")]), w') /\
    calls w' = Call_addManyQuotes :: calls w /\
    db w' = db w.
Proof.
  split; [reflexivity|].
  eexists. split; [reflexivity|]. split; reflexivity.
Qed.

(** ** The random quote *)

Section RandomSelection.

Lemma insert_sorted_map {A B} (g : A -> B) (lebA : A -> A -> bool)
  (lebB : B -> B -> bool) (x : A) (l : list A) :
  (forall a b, lebB (g a) (g b) = lebA a b) ->
  insert_sorted lebB (g x) (map g l) = map g (insert_sorted lebA x l).
Proof.
  intros Hg. induction l as [|y l IH]; simpl; [reflexivity|].
  rewrite Hg. destruct (lebA x y); simpl; [reflexivity|].
  rewrite IH. reflexivity.
Qed.

Lemma order_by_map {A B} (g : A -> B) (lebA : A -> A -> bool)
  (lebB : B -> B -> bool) (l : list A) :
  (forall a b, lebB (g a) (g b) = lebA a b) ->
  order_by lebB (map g l) = map g (order_by lebA l).
Proof.
  intros Hg. induction l as [|x l IH]; simpl; [reflexivity|].
  rewrite IH. apply insert_sorted_map, Hg.
Qed.

Lemma combine_map_snd {A B} (f : A -> B) (ks : list Z) (xs : list A) :
  combine ks (map f xs) = map (fun kx => (fst kx, f (snd kx))) (combine ks xs).
Proof.
  revert xs. induction ks as [|k ks IH]; intros [|x xs]; simpl; try reflexivity.
  rewrite IH. reflexivity.
Qed.

Lemma order_by_random_limit_1_map {A B} (f : A -> B) (ks : list Z) (xs : list A) :
  order_by_random_limit_1 ks (map f xs) =
  option_map f (order_by_random_limit_1 ks xs).
Proof.
  unfold order_by_random_limit_1.
  rewrite combine_map_snd.
  rewrite (order_by_map (fun kx => (fst kx, f (snd kx))) key_leb key_leb)
    by reflexivity.
  destruct (order_by key_leb (combine ks xs)) as [|[k x] t]; reflexivity.
Qed.

Lemma nth_error_seq {A} (rows : list A) :
  map (nth_error rows) (seq 0 (List.length rows)) = map Some rows.
Proof.
  induction rows as [|r rows IH]; simpl; [reflexivity|].
  rewrite <- seq_shift, map_map. simpl. f_equal. exact IH.
Qed.

(** The row selected is the one at the position selected. *)
Lemma order_by_random_limit_1_position {A} (ks : list Z) (rows : list A) :
  order_by_random_limit_1 ks rows =
  match chosen_position ks (List.length rows) with
  | Some i => nth_error rows i
  | None => None
  end.
Proof.
  unfold chosen_position.
  pose proof (order_by_random_limit_1_map Some ks rows) as H1.
  pose proof (order_by_random_limit_1_map (nth_error rows) ks
                (seq 0 (List.length rows))) as H2.
  rewrite nth_error_seq in H2. rewrite H1 in H2.
  destruct (order_by_random_limit_1 ks rows) as [r|];
    destruct (order_by_random_limit_1 ks (seq 0 (List.length rows))) as [i|];
    simpl in H2; congruence.
Qed.
















End RandomSelection.

Lemma chosen_position_some (keys : list Z) (n : nat) :
  List.length keys = n -> (0 < n)%nat ->
  exists i, (i < n)%nat /\ chosen_position keys n = Some i.
Proof.
  intros Hlen Hn. unfold chosen_position, order_by_random_limit_1.
  pose proof (order_by_perm key_leb (combine keys (seq 0 n))) as Hp.
  destruct (order_by key_leb (combine keys (seq 0 n))) as [|[k i] t].
  - apply Permutation_length in Hp.
    rewrite length_combine, length_seq, Hlen in Hp. simpl in Hp. lia.
  - exists i. split; [|reflexivity].
    assert (Hin : In (k, i) (combine keys (seq 0 n)))
      by (eapply Permutation_in; [exact Hp|left; reflexivity]).
    apply in_combine_r, in_seq in Hin. lia.
Qed.

Lemma getRandomQuote_run (l : string) (w : process) :
  let matching := filter (fun r => String.eqb (language r) l) (quotes (db w)) in
  let keys := map (random w) (seq (drawn w) (List.length matching)) in
  getRandomQuote (JStr l) w =
  (Return (match order_by_random_limit_1 keys matching with
           | Some r => row_object r
           | None => JUndefined
           end),
   mkProcess (db w) (Call_getRandomQuote :: calls w) (random w)
             (drawn w + List.length matching)).
Proof. reflexivity. Qed.



(** ** Insert one, then list *)

Lemma check_language_In (l : string) :
  check_language l = true <-> In l ["fr"; "en"].
Proof. apply includes_fr_en_In. Qed.

Lemma truthy_JStr (s : string) : truthy (JStr s) = true <-> s <> "".
Proof.
  simpl. rewrite negb_true_iff. apply String.eqb_neq.
Qed.

Lemma addQuote_texts (q a l : string) (w : process) :
  check_language l = true ->
  addQuote (JStr q) (JStr a) (JStr l) w =
  (Return tt,
   mkProcess (append_row (q, a, l) (db w)) (Call_addQuote :: calls w)
             (random w) (drawn w)).
Proof.
  intros Hl.
  unfold addQuote, statements.insertQuote_run, statements.run_insert,
    bind, log_call, lift, read_db, write_db, set_db, insert_into_quotes.
  cbn -[check_language append_row]. rewrite Hl. reflexivity.
Qed.

(** C7. For every valid triple (a non-empty quote text, a non-empty
    author text, a language in [{fr, en}]) submitted to
    POST /:language/quote, the answer is 201 echoing the three fields, and
    the listing of that language read next is the listing as it was
    before with exactly that record added: the record is in it, and the
    rest is unchanged up to the order of presentation.  The endpoint
    GET /:language/quotes then answers 200 with that listing. *)
Theorem single_insert_round_trip (env : environment) (q a l : string)
  (props : list (string * jsval)) (w : process) :
  q <> "" -> a <> "" -> In l ["fr"; "en"] ->
  lookup "quote" props = Some (JStr q) ->
  lookup "author" props = Some (JStr a) ->
  exists before w0 w1 after w2,
    getQuotesByLanguage (JStr l) w = (Return before, w0) /\
    app env (POST_language_quote l (JObj props)) w =
      (quote_added (JStr q) (JStr a) l, w1) /\
    getQuotesByLanguage (JStr l) w1 = (Return after, w2) /\
    In (record q a l) after /\
    Permutation after (record q a l :: before) /\
    fst (app env (GET_language_quotes l) w1) =
      mkResponse 200
        (JObj [("language", JStr l);
               ("total", JNum (Z.of_nat (List.length after)));
               ("quotes", JArr after)]).
Proof.
  intros Hq Ha Hl Hpq Hpa.
  assert (Hcheck : check_language l = true) by (apply check_language_In, Hl).
  assert (Hpost :
    app env (POST_language_quote l (JObj props)) w =
    (quote_added (JStr q) (JStr a) l,
     mkProcess (append_row (q, a, l) (db w)) (Call_addQuote :: calls w)
               (random w) (drawn w))).
  { unfold app. rewrite route_POST_language_quote_parsed by reflexivity.
    unfold post_language_quote.
    rewrite validateLanguage_accept by exact Hl.
    unfold bind at 1, lift, destructure, get_prop. rewrite Hpq.
    unfold bind at 1. rewrite Hpa.
    rewrite (proj2 (truthy_JStr q) Hq), (proj2 (truthy_JStr a) Ha).
    cbn [negb orb]. unfold try_catch, bind. rewrite addQuote_texts by exact Hcheck.
    reflexivity. }
  assert (Hperm :
    Permutation
      (map row_object
         (order_by author_leb
            (filter (fun r => String.eqb (language r) l)
               (quotes (append_row (q, a, l) (db w))))))
      (record q a l ::
       map row_object
         (order_by author_leb
            (filter (fun r => String.eqb (language r) l) (quotes (db w)))))).
  { change (record q a l) with (row_object (mkRow (next_rowid (db w)) q a l)).
    rewrite <- map_cons. apply Permutation_map.
    eapply Permutation_trans; [apply order_by_perm|].
    cbn [append_row quotes]. rewrite filter_app. cbn [filter language].
    rewrite String.eqb_refl.
    eapply Permutation_trans; [apply Permutation_app_comm|]. simpl.
    apply perm_skip, Permutation_sym, order_by_perm. }
  eexists _, _, _, _, _.
  split; [apply getQuotesByLanguage_run|].
  split; [exact Hpost|].
  split; [apply getQuotesByLanguage_run|].
  cbn [db].
  split; [eapply Permutation_in; [apply Permutation_sym, Hperm|left; reflexivity]|].
  split; [exact Hperm|].
  unfold app, route, get_language_quotes.
  rewrite validateLanguage_accept by exact Hl.
  unfold bind. rewrite getQuotesByLanguage_run. cbn [db].
  remember (map row_object _) as after eqn:Hafter.
  destruct after as [|r rest].
  - apply Permutation_nil in Hperm. discriminate Hperm.
  - reflexivity.
Qed.

Lemma single_insert_round_trip_witness :
  "Stay hungry" <> "" /\ "Jobs" <> "" /\ In "en" ["fr"; "en"] /\
  exists before w0 w1 after w2,
    getQuotesByLanguage (JStr "en") example_start = (Return before, w0) /\
    app example_env
        (POST_language_quote "en"
           (JObj [("quote", JStr "Stay hungry"); ("author", JStr "Jobs")]))
        example_start =
      (quote_added (JStr "Stay hungry") (JStr "Jobs") "en", w1) /\
    getQuotesByLanguage (JStr "en") w1 = (Return after, w2) /\
    In (record "Stay hungry" "Jobs" "en") after /\
    Permutation after (record "Stay hungry" "Jobs" "en" :: before) /\
    fst (app example_env (GET_language_quotes "en") w1) =
      mkResponse 200
        (JObj [("language", JStr "en");
               ("total", JNum (Z.of_nat (List.length after)));
               ("quotes", JArr after)]).
Proof.
  assert (Hq : "Stay hungry" <> "") by discriminate.
  assert (Ha : "Jobs" <> "") by discriminate.
  assert (Hl : In "en" ["fr"; "en"]) by (simpl; auto).
  split; [exact Hq|]. split; [exact Ha|]. split; [exact Hl|].
  apply (single_insert_round_trip example_env "Stay hungry" "Jobs" "en"
           [("quote", JStr "Stay hungry"); ("author", JStr "Jobs")]
           example_start Hq Ha Hl); reflexivity.
Defined.

(** ** The bulk import and [null] elements *)

(** A body the parser lets through and [validateQuotes] refuses. *)
Lemma post_quotes_invalid (env : environment) (req_body : jsval) (w : process) :
  express_json req_body = Return req_body ->
  validateQuotes req_body = Return false ->
  app env (POST_quotes req_body) w = (mkResponse 400 invalid_format, w).
Proof.
  intros Hparse Hv. unfold app. rewrite route_POST_quotes_parsed by exact Hparse.
  unfold post_quotes, bind, lift. rewrite Hv. reflexivity.
Qed.

Lemma validateQuotes_not_array (req_body : jsval) :
  (forall elems, req_body <> JArr elems) ->
  validateQuotes req_body = Return false.
Proof.
  intros Hna. destruct req_body; try reflexivity.
  exfalso. eapply Hna. reflexivity.
Qed.

Lemma validateQuotes_callback_returns (quote : jsval) :
  quote <> JNull -> quote <> JUndefined ->
  exists v, validateQuotes_callback quote = Return v.
Proof.
  intros Hnull Hundef. unfold validateQuotes_callback.
  destruct quote; try congruence; cbn [get_prop obind];
    repeat match goal with
           | |- context [if ?c then _ else _] => destruct c
           end; eexists; reflexivity.
Qed.

(** An array without [null] elements is either accepted or refused:
    [validateQuotes] does not throw on it. *)
Lemma validateQuotes_returns (elems : list jsval) :
  Forall (fun e => e <> JNull /\ e <> JUndefined) elems ->
  exists b, validateQuotes (JArr elems) = Return b.
Proof.
  induction 1 as [|e elems [Hnull Hundef] _ IH]; simpl.
  - eexists; reflexivity.
  - destruct (validateQuotes_callback_returns e Hnull Hundef) as [v Hv].
    rewrite Hv. destruct (truthy v); [exact IH|eexists; reflexivity].
Qed.

(** C4. The payload [[null]] is an array with an element that has no
    quote, no author and no language.  [validateQuotes] reads
    [quote.quote] on it and throws a [TypeError]; the route does not catch
    it, so the global error handler answers 500 and not 400.  No storage
    method is invoked and the state is unchanged. *)
Theorem bulk_import_null_element_500 (env : environment) (w : process) :
  let err := TypeError "Cannot read properties of null (reading 'quote')" in
  validateQuotes (JArr [JNull]) = Throw err /\
  app env (POST_quotes (JArr [JNull])) w = (error_handler env err, w) /\
  status (error_handler env err) = 500.
Proof.
  repeat split.
Qed.

(** ** The invariant of the table, and rows with an empty quote *)

Section Preservation.

Variable P : row -> Prop.

Lemma preserves_ret {A} (a : A) : preserves P (ret a).
Proof. intros w H. exact H. Qed.

Lemma preserves_lift {A} (o : outcome A) : preserves P (lift o).
Proof. intros w H. exact H. Qed.

Lemma preserves_log_call (c : storage_call) : preserves P (log_call c).
Proof. intros w H. exact H. Qed.

Lemma preserves_bind {A B} (c : js A) (k : A -> js B) :
  preserves P c -> (forall a, preserves P (k a)) -> preserves P (bind c k).
Proof.
  intros Hc Hk w Hok. unfold bind. specialize (Hc w Hok).
  destruct (c w) as [[a|e] w']; [apply Hk, Hc|exact Hc].
Qed.

Lemma preserves_try_catch {A} (c : js A) (h : jserror -> js A) :
  preserves P c -> (forall e, preserves P (h e)) -> preserves P (try_catch c h).
Proof.
  intros Hc Hh w Hok. unfold try_catch. specialize (Hc w Hok).
  destruct (c w) as [[a|e] w']; [exact Hc|apply Hh, Hc].
Qed.

Lemma preserves_transaction {A} (c : js A) :
  preserves P c -> preserves P (transaction c).
Proof.
  intros Hc w Hok. unfold transaction. specialize (Hc w Hok).
  destruct (c w) as [[a|e] w']; [exact Hc|exact Hok].
Qed.

Lemma preserves_for_of {A} (xs : list A) (body : A -> js unit) :
  Forall (fun x => preserves P (body x)) xs -> preserves P (for_of xs body).
Proof.
  induction 1 as [|x xs Hx _ IH]; simpl.
  - apply preserves_ret.
  - apply preserves_bind; [exact Hx|intros _; exact IH].
Qed.

Lemma preserves_validateLanguage (l : string) (next : js response) :
  preserves P next -> preserves P (validateLanguage l next).
Proof.
  intros H. unfold validateLanguage.
  destruct (negb _); [apply preserves_ret|exact H].
Qed.

Lemma preserves_getAllQuotes : preserves P getAllQuotes.
Proof. intros w H. rewrite getAllQuotes_run. exact H. Qed.

Lemma preserves_getQuotesByLanguage (l : string) :
  preserves P (getQuotesByLanguage (JStr l)).
Proof. intros w H. rewrite getQuotesByLanguage_run. exact H. Qed.

Lemma preserves_getRandomQuote (l : string) :
  preserves P (getRandomQuote (JStr l)).
Proof. intros w H. rewrite getRandomQuote_run. exact H. Qed.

(** An insert keeps the table in [P] when the row it would add is. *)
Lemma preserves_run_insert (ps : parameters) (args : list jsval) :
  (forall bs q a l,
      Bind ps args = Return bs ->
      new_row_texts (parameter 1 bs) (parameter 2 bs) (parameter 3 bs)
        = Return (q, a, l) ->
      forall i, P (mkRow i q a l)) ->
  preserves P (statements.run_insert ps args).
Proof.
  intros Hrow w Hok.
  unfold statements.run_insert, bind, lift, read_db, write_db,
    insert_into_quotes.
  destruct (Bind ps args) as [bs|e] eqn:Hbind; [|exact Hok].
  cbv beta iota.
  destruct (new_row_texts _ _ _) as [[[q a] l]|e] eqn:Hnew; [|exact Hok].
  cbn [snd set_db db append_row quotes].
  apply Forall_app. split; [exact Hok|].
  constructor; [|constructor]. eapply Hrow; [reflexivity|exact Hnew].
Qed.

(** The routes that do not write. *)
Lemma preserves_read_routes (env : environment) (r : request) :
  (forall req_body, r <> POST_quotes req_body) ->
  (forall l req_body, r <> POST_language_quote l req_body) ->
  preserves P (route env r).
Proof.
  intros Hbulk Hone.
  destruct r as [| | |req_body|l|l|l req_body| |message]; cbn [route].
  - apply preserves_ret.
  - apply preserves_ret.
  - apply preserves_bind; [apply preserves_getAllQuotes|].
    intros rows. destruct (_ =? _)%nat; apply preserves_ret.
  - exfalso. eapply Hbulk. reflexivity.
  - apply preserves_validateLanguage, preserves_bind;
      [apply preserves_getQuotesByLanguage|].
    intros rows. destruct (_ =? _)%nat; apply preserves_ret.
  - apply preserves_validateLanguage, preserves_bind;
      [apply preserves_getRandomQuote|].
    intros q. destruct (negb _); apply preserves_ret.
  - exfalso. eapply Hone. reflexivity.
  - apply preserves_ret.
  - intros w H. exact H.
Qed.

End Preservation.

Lemma real_text_not_empty (n : Z) : real_text n <> "".
Proof.
  unfold real_text. destruct (number_to_string n); discriminate.
Qed.

Lemma new_row_texts_ok (q a l : sqlval) (tq ta tl : string) :
  new_row_texts q a l = Return (tq, ta, tl) ->
  text_affinity q = Some tq /\ text_affinity a = Some ta /\
  In tl ["fr"; "en"].
Proof.
  unfold new_row_texts.
  destruct (text_affinity q) as [q'|]; [|discriminate].
  destruct (text_affinity a) as [a'|]; [|discriminate].
  destruct (text_affinity l) as [l'|]; [|discriminate].
  destruct (check_language l') eqn:Hl; [|discriminate].
  intros H. injection H as -> -> ->.
  repeat split. apply check_language_In, Hl.
Qed.

(** Every insert keeps the languages in [{fr, en}]: the [CHECK]
    constraint. *)
Lemma run_insert_language (ps : parameters) (args : list jsval) :
  preserves language_ok (statements.run_insert ps args).
Proof.
  apply preserves_run_insert. intros bs q a l _ Hnew i.
  apply new_row_texts_ok in Hnew. apply Hnew.
Qed.

(** Every route keeps the languages in [{fr, en}]. *)
Lemma route_language (env : environment) (r : request) :
  preserves language_ok (route env r).
Proof.
  destruct r as [| | |req_body|l|l|l req_body| |message];
    try (apply preserves_read_routes; intros; discriminate).
  - cbn [route]. apply preserves_bind; [apply preserves_lift|]. intros parsed.
    unfold post_quotes.
    apply preserves_bind; [apply preserves_lift|].
    intros valid. destruct (negb valid); [apply preserves_ret|].
    apply preserves_bind.
    + unfold addManyQuotes.
      apply preserves_bind; [apply preserves_log_call|]. intros _.
      apply preserves_try_catch; [|intros e; apply preserves_ret].
      apply preserves_bind; [|intros _; apply preserves_ret].
      apply preserves_transaction, preserves_for_of, Forall_forall.
      intros record _. apply run_insert_language.
    + intros result.
      repeat (apply preserves_bind; [apply preserves_lift|]; intros ?).
      apply preserves_ret.
  - cbn [route]. apply preserves_bind; [apply preserves_lift|]. intros parsed.
    unfold post_language_quote.
    apply preserves_validateLanguage.
    apply preserves_bind; [apply preserves_lift|]. intros quote.
    apply preserves_bind; [apply preserves_lift|]. intros author.
    destruct (_ || _); [apply preserves_ret|].
    apply preserves_try_catch; [|intros e; apply preserves_ret].
    apply preserves_bind; [|intros _; apply preserves_ret].
    unfold addQuote.
    apply preserves_bind; [apply preserves_log_call|]. intros _.
    apply run_insert_language.
Qed.

Lemma app_preserves (P : row -> Prop) (env : environment) (r : request)
  (w : process) :
  preserves P (route env r) ->
  Forall P (quotes (db w)) -> Forall P (quotes (db (snd (app env r w)))).
Proof.
  intros Hr Hok. specialize (Hr w Hok). unfold app.
  destruct (route env r w) as [[res|err] w']; exact Hr.
Qed.

(** After any sequence of requests served on a new database, every row
    has its language in [{fr, en}]. *)
Lemma language_invariant (env : environment) (rs : list request)
  (random : nat -> Z) :
  Forall language_ok (quotes (db (serve env rs (start random)))).
Proof.
  assert (Hgen : forall w, Forall language_ok (quotes (db w)) ->
                           Forall language_ok (quotes (db (serve env rs w)))).
  { induction rs as [|r rs IH]; intros w Hok; simpl; [exact Hok|].
    apply IH, app_preserves; [apply route_language|exact Hok]. }
  apply Hgen. constructor.
Qed.

(** The text stored for a truthy bound value is not empty. *)
Lemma truthy_text_not_empty (v : jsval) (sv : sqlval) (t : string) :
  truthy v = true -> bind_value_from_js v = Some sv ->
  text_affinity sv = Some t -> t <> "".
Proof.
  destruct v; simpl; try discriminate.
  - intros _ H. injection H as <-. simpl. intros H. injection H as <-.
    apply real_text_not_empty.
  - intros Ht H. injection H as <-. simpl. intros H. injection H as <-.
    apply String.eqb_neq. apply negb_true_iff. exact Ht.
Qed.

Lemma record_texts_object (props : list (string * jsval))
  (t : string * string * string) :
  record_texts (JObj props) = Return t ->
  exists vq va vl sq sa sl,
    lookup "quote" props = Some vq /\ bind_value_from_js vq = Some sq /\
    lookup "author" props = Some va /\ bind_value_from_js va = Some sa /\
    lookup "language" props = Some vl /\ bind_value_from_js vl = Some sl /\
    new_row_texts sq sa sl = Return t.
Proof.
  unfold record_texts, Bind. cbn -[new_row_texts lookup bind_value_from_js].
  unfold BindValue.
  destruct (lookup "quote" props) as [vq|]; [|discriminate].
  destruct (bind_value_from_js vq) as [sq|] eqn:Hq; [|discriminate].
  cbn -[new_row_texts lookup bind_value_from_js].
  destruct (lookup "author" props) as [va|]; [|discriminate].
  destruct (bind_value_from_js va) as [sa|] eqn:Ha; [|discriminate].
  cbn -[new_row_texts lookup bind_value_from_js].
  destruct (lookup "language" props) as [vl|]; [|discriminate].
  destruct (bind_value_from_js vl) as [sl|] eqn:Hl; [|discriminate].
  cbn -[new_row_texts lookup bind_value_from_js].
  intros Ht. exists vq, va, vl, sq, sa, sl. repeat split; assumption.
Qed.

Lemma record_texts_not_object (e : jsval) (t : string * string * string) :
  record_texts e = Return t -> exists props, e = JObj props.
Proof.
  destruct e as [| |b|n|s|elems|props]; try discriminate.
  - destruct elems as [|x elems]; [discriminate|].
    unfold record_texts, Bind. cbn. unfold BindValue.
    destruct (bind_value_from_js x); discriminate.
  - intros _. exists props. reflexivity.
Qed.

Lemma every_validated (elems : list jsval) :
  every validateQuotes_callback elems = Return true ->
  Forall (fun e => exists v, validateQuotes_callback e = Return v /\
                             truthy v = true) elems.
Proof.
  induction elems as [|e elems IH]; simpl; intros H; [constructor|].
  destruct (validateQuotes_callback e) as [v|err] eqn:Hv; [|discriminate].
  destruct (truthy v) eqn:Ht; [|discriminate].
  constructor; [exists v; split; [exact Hv|exact Ht]|apply IH, H].
Qed.

(** A record [validateQuotes] accepts is stored, if at all, as a row that
    satisfies the invariant. *)
Lemma validated_record_row_ok (e v : jsval) (q a l : string) (i : Z) :
  validateQuotes_callback e = Return v -> truthy v = true ->
  record_texts e = Return (q, a, l) ->
  row_ok (mkRow i q a l).
Proof.
  intros Hv Ht Hrec.
  destruct (record_texts_not_object e _ Hrec) as [props ->].
  destruct (record_texts_object props _ Hrec)
    as (vq & va & vl & sq & sa & sl & Lq & Bq & La & Ba & Ll & Bl & Hnew).
  apply new_row_texts_ok in Hnew as (Tq & Ta & Hl).
  unfold validateQuotes_callback, get_prop in Hv. rewrite Lq, La, Ll in Hv.
  cbn [obind] in Hv.
  destruct (truthy vq) eqn:Hq;
    [|injection Hv as <-; rewrite Hq in Ht; discriminate Ht].
  destruct (truthy va) eqn:Ha;
    [|injection Hv as <-; rewrite Ha in Ht; discriminate Ht].
  unfold row_ok. cbn [language quote author].
  split; [exact Hl|]. split.
  - exact (truthy_text_not_empty vq sq q Hq Bq Tq).
  - exact (truthy_text_not_empty va sa a Ha Ba Ta).
Qed.

Lemma addManyQuotes_row_ok (elems : list jsval) :
  every validateQuotes_callback elems = Return true ->
  preserves row_ok (addManyQuotes elems).
Proof.
  intros Hv. apply every_validated in Hv.
  unfold addManyQuotes.
  apply preserves_bind; [apply preserves_log_call|]. intros _.
  apply preserves_try_catch; [|intros e; apply preserves_ret].
  apply preserves_bind; [|intros _; apply preserves_ret].
  apply preserves_transaction, preserves_for_of.
  eapply Forall_impl; [|exact Hv].
  intros record (v & Hcb & Ht).
  apply preserves_run_insert. intros bs q a l Hbind Hnew i.
  apply (validated_record_row_ok record v q a l i Hcb Ht).
  unfold record_texts. rewrite Hbind. exact Hnew.
Qed.

Lemma post_quotes_row_ok (req_body : jsval) :
  preserves row_ok (post_quotes req_body).
Proof.
  intros w Hok. unfold post_quotes, bind at 1, lift.
  destruct (validateQuotes req_body) as [[|]|e] eqn:Hv; cbn [negb];
    [|exact Hok|exact Hok].
  destruct req_body as [| |b|n|s|elems|props]; try discriminate Hv.
  cbn [validateQuotes array_elements] in *.
  refine (preserves_bind row_ok _ _ (addManyQuotes_row_ok elems Hv) _ w Hok).
  intros result.
  repeat (apply preserves_bind; [apply preserves_lift|]; intros ?).
  apply preserves_ret.
Qed.

Lemma addQuote_row_ok (quote author : jsval) (l : string) :
  truthy quote = true -> truthy author = true ->
  (forall elems, quote <> JArr elems) ->
  (forall elems, author <> JArr elems) ->
  preserves row_ok (addQuote quote author (JStr l)).
Proof.
  intros Hq Ha Hnq Hna.
  unfold addQuote.
  apply preserves_bind; [apply preserves_log_call|]. intros _.
  apply preserves_run_insert. intros bs q a l' Hbind Hnew i.
  unfold statements.insertQuote_params, Bind in Hbind.
  destruct quote as [| |bq|nq|sq|eq|pq]; try discriminate Hq;
    try (exfalso; eapply Hnq; reflexivity);
    destruct author as [| |ba|na|sa|ea|pa]; try discriminate Ha;
    try (exfalso; eapply Hna; reflexivity);
    try discriminate Hbind;
    injection Hbind as <-;
    apply new_row_texts_ok in Hnew as (Tq & Ta & Hl);
    cbn in Tq, Ta; injection Tq as <-; injection Ta as <-;
    (split; [exact Hl|split]);
    try apply real_text_not_empty;
    try (apply String.eqb_neq, negb_true_iff; assumption).
Qed.

Lemma post_language_quote_row_ok (l : string) (req_body : jsval) :
  no_array_field (POST_language_quote l req_body) ->
  preserves row_ok (post_language_quote l req_body).
Proof.
  intros Hna. cbn [no_array_field] in Hna. destruct Hna as [Hnq Hna].
  unfold post_language_quote. apply preserves_validateLanguage.
  intros w Hok. unfold bind at 1, lift.
  destruct (destructure req_body "quote") as [quote|e] eqn:Dq; [|exact Hok].
  unfold bind at 1.
  destruct (destructure req_body "author") as [author|e] eqn:Da; [|exact Hok].
  destruct (truthy quote) eqn:Hq; [|exact Hok].
  destruct (truthy author) eqn:Ha; [|exact Hok].
  cbn [negb orb].
  refine (preserves_try_catch row_ok _ _ _ _ w Hok);
    [|intros e; apply preserves_ret].
  apply preserves_bind; [|intros _; apply preserves_ret].
  apply addQuote_row_ok; try assumption.
  - intros elems ->. exact (Hnq _ eq_refl).
  - intros elems ->. exact (Hna _ eq_refl).
Qed.

Lemma route_row_ok (env : environment) (r : request) :
  no_array_field r -> preserves row_ok (route env r).
Proof.
  intros Hna.
  destruct r as [| | |req_body|l|l|l req_body| |message];
    try (apply preserves_read_routes; intros; discriminate).
  - cbn [route]. apply preserves_bind; [apply preserves_lift|].
    intros parsed. apply post_quotes_row_ok.
  - destruct (express_json_cases req_body) as [Hparse|[e Hparse]].
    + rewrite route_POST_language_quote_parsed by exact Hparse.
      apply post_language_quote_row_ok, Hna.
    + intros w Hok.
      rewrite (route_POST_language_quote_refused _ _ _ _ _ Hparse). exact Hok.
Qed.

(** Served on a new database, a sequence of requests none of which is a
    single insert with an array as quote or author leaves a table whose
    rows all have a language in [{fr, en}], a non-empty quote and a
    non-empty author. *)
Lemma row_invariant_without_array_fields (env : environment)
  (rs : list request) (random : nat -> Z) :
  Forall no_array_field rs ->
  Forall row_ok (quotes (db (serve env rs (start random)))).
Proof.
  intros Hrs.
  assert (Hgen : forall w, Forall row_ok (quotes (db w)) ->
                           Forall row_ok (quotes (db (serve env rs w)))).
  { induction Hrs as [|r rs Hr _ IH]; intros w Hok; simpl; [exact Hok|].
    apply IH, app_preserves; [apply route_row_ok, Hr|exact Hok]. }
  apply Hgen. constructor.
Qed.

(** C3. Served on a new database, POST /fr/quote with the body
    [{ "quote": [""], "author": [""] }] passes the check
    [!quote || !author] (an array is truthy), and better-sqlite3 binds the
    elements of each array argument as positional parameters: the row
    inserted has the empty text as quote and as author.  The answer is
    201. *)
Theorem empty_quote_row_inserted (env : environment) (random : nat -> Z) :
  let req := POST_language_quote "fr"
               (JObj [("quote", JArr [JStr ""]); ("author", JArr [JStr ""])]) in
  fst (app env req (start random)) =
    quote_added (JArr [JStr ""]) (JArr [JStr ""]) "fr" /\
  quotes (db (serve env [req] (start random))) = [mkRow 1 "" "" "fr"].
Proof.
  split; reflexivity.
Qed.

(** ** What a 500 response carries *)

Lemma error_handler_response (env : environment) (err : jserror) :
  error_handler env err = mkResponse 500 (error_handler_body env err).
Proof.
  unfold error_handler, error_handler_body.
  destruct (NODE_ENV env) as [mode|]; [|reflexivity].
  destruct (String.eqb mode "development"); reflexivity.
Qed.

Lemma addManyQuotes_result (records : list jsval) (w : process) :
  exists w',
    addManyQuotes records w =
      (Return (JObj [("success", JBool true);
                     ("count", JNum (Z.of_nat (List.length records)))]), w') \/
    exists e,
      addManyQuotes records w =
        (Return (JObj [("success", JBool false);
                       ("error", JStr (err_message e))]), w').
Proof.
  unfold addManyQuotes, try_catch, transaction, bind, log_call, ret.
  match goal with
  | |- context [for_of records ?body ?w0] =>
      destruct (for_of records body w0) as [[[]|e] w1]
  end.
  - eexists. left. reflexivity.
  - eexists. right. exists e. reflexivity.
Qed.

(** C9, as the code has it.  A 500 response comes from one of three
    places.  When the body parser or the route threw, the global error
    handler answers with the generic message alone, plus a [details]
    field holding the error's message exactly when [NODE_ENV] is
    [development].  When
    POST /:language/quote caught the error of [addQuote], the body is
    [{ error }] with the message of that error, in every mode.  When
    [addManyQuotes] reported a failure to POST /quotes, the body is
    [{ success: false, message, error }] with the message of the error
    that failed the batch, in every mode. *)
Theorem error_500_bodies (env : environment) (r : request) (w : process) :
  status (fst (app env r w)) = 500 ->
  (exists err w',
      route env r w = (Throw err, w') /\
      body (fst (app env r w)) = error_handler_body env err)
  \/
  (exists language req_body quote author err w',
      r = POST_language_quote language req_body /\
      destructure req_body "quote" = Return quote /\
      destructure req_body "author" = Return author /\
      addQuote quote author (JStr language) w = (Throw err, w') /\
      body (fst (app env r w)) = JObj [("error", JStr (err_message err))])
  \/
  (exists req_body err,
      r = POST_quotes req_body /\
      fst (addManyQuotes (array_elements req_body) w) =
        Return (JObj [("success", JBool false);
                      ("error", JStr (err_message err))]) /\
      body (fst (app env r w)) = import_failed_body (err_message err)).
Proof.
  intros H500. 
  destruct (route env r w) as [[res|err] w'] eqn:Hroute.
  2:{ left. exists err, w'. split; [reflexivity|].
      unfold app. rewrite Hroute. cbn [fst].
      rewrite error_handler_response. reflexivity. }
  right. unfold app in *. rewrite Hroute in *. cbn [fst] in *.
  destruct r as [| | |req_body|language|language|language req_body| |message];
    cbn [route] in Hroute.
  - injection Hroute as <- _. discriminate H500.
  - injection Hroute as <- _. discriminate H500.
  - unfold get_quotes, bind in Hroute. rewrite getAllQuotes_run in Hroute.
    destruct (List.length _ =? 0)%nat; injection Hroute as <- _; discriminate H500.
  - right. exists req_body.
    change (route env (POST_quotes req_body) w = (Return res, w')) in Hroute.
    destruct (express_json_cases req_body) as [Hparse|[e Hparse]];
      [|rewrite (route_POST_quotes_refused _ _ _ _ Hparse) in Hroute;
        discriminate Hroute].
    rewrite route_POST_quotes_parsed in Hroute by exact Hparse.
    unfold post_quotes, bind, lift in Hroute.
    destruct (validateQuotes req_body) as [[|]|e]; cbn [negb] in Hroute.
    + destruct (addManyQuotes_result (array_elements req_body) w)
        as [w1 [Hok|[e Hfail]]].
      * rewrite Hok in Hroute. cbn in Hroute.
        injection Hroute as <- _. discriminate H500.
      * rewrite Hfail in Hroute. exists e. rewrite Hfail.
        cbn -[truthy] in Hroute. injection Hroute as <- _.
        repeat split.
    + injection Hroute as <- _. discriminate H500.
    + discriminate Hroute.
  - unfold get_language_quotes, validateLanguage in Hroute.
    destruct (includes_fr_en (JStr language)); cbn [negb] in Hroute.
    + unfold bind in Hroute. rewrite getQuotesByLanguage_run in Hroute.
      destruct (List.length _ =? 0)%nat; injection Hroute as <- _;
        discriminate H500.
    + injection Hroute as <- _. discriminate H500.
  - unfold get_language_quote, validateLanguage in Hroute.
    destruct (includes_fr_en (JStr language)); cbn [negb] in Hroute.
    + unfold bind in Hroute. rewrite getRandomQuote_run in Hroute.
      cbv zeta in Hroute.
      destruct (negb _); injection Hroute as <- _; discriminate H500.
    + injection Hroute as <- _. discriminate H500.
  - left. exists language, req_body.
    change (route env (POST_language_quote language req_body) w
            = (Return res, w')) in Hroute.
    destruct (express_json_cases req_body) as [Hparse|[e Hparse]];
      [|rewrite (route_POST_language_quote_refused _ _ _ _ _ Hparse) in Hroute;
        discriminate Hroute].
    rewrite route_POST_language_quote_parsed in Hroute by exact Hparse.
    unfold post_language_quote, validateLanguage in Hroute.
    destruct (includes_fr_en (JStr language)); cbn [negb] in Hroute.
    + unfold bind at 1, lift in Hroute.
      destruct (destructure req_body "quote") as [quote|e] eqn:Dq;
        [|discriminate Hroute].
      unfold bind at 1 in Hroute.
      destruct (destructure req_body "author") as [author|e] eqn:Da;
        [|discriminate Hroute].
      destruct (negb (truthy quote) || negb (truthy author)).
      * injection Hroute as <- _. discriminate H500.
      * unfold try_catch, bind in Hroute.
        destruct (addQuote quote author (JStr language) w) as [[[]|e] w1] eqn:Hadd.
        -- injection Hroute as <- _. discriminate H500.
        -- exists quote, author, e, w1. injection Hroute as <- _.
           repeat split. exact Hadd.
    + injection Hroute as <- _. discriminate H500.
  - injection Hroute as <- _. discriminate H500.
  - discriminate Hroute.
Qed.

Lemma error_500_bodies_witness :
  status (fst (app example_env example_unbindable example_start)) = 500 /\
  ((exists err w',
       route example_env example_unbindable example_start = (Throw err, w') /\
       body (fst (app example_env example_unbindable example_start)) =
         error_handler_body example_env err)
   \/
   (exists language req_body quote author err w',
       example_unbindable = POST_language_quote language req_body /\
       destructure req_body "quote" = Return quote /\
       destructure req_body "author" = Return author /\
       addQuote quote author (JStr language) example_start = (Throw err, w') /\
       body (fst (app example_env example_unbindable example_start)) =
         JObj [("error", JStr (err_message err))])
   \/
   (exists req_body err,
       example_unbindable = POST_quotes req_body /\
       fst (addManyQuotes (array_elements req_body) example_start) =
         Return (JObj [("success", JBool false);
                       ("error", JStr (err_message err))]) /\
       body (fst (app example_env example_unbindable example_start)) =
         import_failed_body (err_message err))).
Proof.
  assert (H500 : status (fst (app example_env example_unbindable example_start))
                 = 500) by reflexivity.
  split; [exact H500|].
  exact (error_500_bodies example_env example_unbindable example_start H500).
Defined.

(** C9, as stated, fails.  In production, a single insert whose quote is
    [true] is answered 500 with the message of the binder's error as its
    only field: not the generic message, and with the error's text
    outside development. *)
Lemma storage_error_500_not_generic :
  ~ (forall (env : environment) (r : request) (w : process),
        status (fst (app env r w)) = 500 ->
        generic_500_body env (body (fst (app env r w)))).
Proof.
  intros Hclaim.
  destruct (Hclaim example_env example_unbindable example_start eq_refl)
    as [Hgeneric|[Hmode _]].
  - discriminate Hgeneric.
  - apply Hmode. reflexivity.
Qed.

(** ** The examples of the interface *)

Example stay_hungry :
  let added := app example_env
                 (POST_language_quote "en"
                    (JObj [("quote", JStr "Stay hungry"); ("author", JStr "Jobs")]))
                 example_start in
  fst added = quote_added (JStr "Stay hungry") (JStr "Jobs") "en" /\
  fst (app example_env (GET_language_quotes "en") (snd added)) =
    mkResponse 200
      (JObj [("language", JStr "en"); ("total", JNum 1);
             ("quotes", JArr [record "Stay hungry" "Jobs" "en"])]).
Proof. split; reflexivity. Qed.

Example german_quote_refused :
  app example_env
      (POST_quotes
         (JArr [JObj [("quote", JStr "Q1"); ("author", JStr "A1");
                      ("language", JStr "de")]]))
      example_start
  = (mkResponse 400 invalid_format, example_start).
Proof. reflexivity. Qed.

Example bad_record_rolls_back :
  let w := snd (addManyQuotes
                  [record "Q1" "A1" "en"; record "Q2" "A2" "de"]
                  example_two_quotes) in
  db w = db example_two_quotes /\
  calls w = Call_addManyQuotes :: calls example_two_quotes.
Proof. split; reflexivity. Qed.

Example two_quotes_listed_by_author :
  fst (app example_env GET_quotes example_two_quotes) =
    mkResponse 200
      (JObj [("total", JNum 2);
             ("quotes", JArr [record "Stay hungry" "Jobs" "en";
                              record "Be yourself" "Wilde" "en"])]).
Proof. reflexivity. Qed.

(* ===================================================================== *)
(** * Further properties of the two modules *)
(* ===================================================================== *)

(** ** What [validateQuotes] accepts, refuses and throws on *)

Lemma validateQuotes_callback_object (props : list (string * jsval)) :
  validateQuotes_callback (JObj props) =
  Return (if truthy (own_field "quote" props) then
            if truthy (own_field "author" props) then
              if truthy (own_field "language" props)
              then JBool (includes_fr_en (own_field "language" props))
              else own_field "language" props
            else own_field "author" props
          else own_field "quote" props).
Proof.
  unfold validateQuotes_callback, get_prop, own_field. cbn [obind].
  destruct (truthy _); [|reflexivity].
  destruct (truthy _); [|reflexivity].
  destruct (truthy _); reflexivity.
Qed.

Lemma includes_fr_en_string (v : jsval) :
  includes_fr_en v = true <-> exists l, v = JStr l /\ In l ["fr"; "en"].
Proof.
  split.
  - destruct v; try discriminate. intros H. exists s. split; [reflexivity|].
    apply includes_fr_en_In, H.
  - intros (l & -> & Hl). apply includes_fr_en_In, Hl.
Qed.

Lemma callback_accepts_iff (e : jsval) :
  (exists v, validateQuotes_callback e = Return v /\ truthy v = true) <->
  accepted_element e.
Proof.
  split.
  - intros (v & Hv & Ht).
    destruct e as [| |b|n|s|elems|props]; try discriminate Hv;
      try (injection Hv as <-; discriminate Ht).
    rewrite validateQuotes_callback_object in Hv. injection Hv as <-.
    destruct (truthy (own_field "quote" props)) eqn:Hq; [|congruence].
    destruct (truthy (own_field "author" props)) eqn:Ha; [|congruence].
    destruct (truthy (own_field "language" props)) eqn:Hl; [|congruence].
    cbn [truthy] in Ht. apply includes_fr_en_string in Ht as (l & El & Hin).
    exists props, l. repeat split; assumption.
  - intros (props & l & -> & Hq & Ha & El & Hin).
    rewrite validateQuotes_callback_object, Hq, Ha, El.
    cbn [truthy]. eexists. split; [reflexivity|].
    destruct (negb (String.eqb l "")) eqn:Hne.
    + cbn [truthy]. apply includes_fr_en_In, Hin.
    + exfalso. apply negb_false_iff, String.eqb_eq in Hne. subst l.
      simpl in Hin. destruct Hin as [H|[H|[]]]; discriminate H.
Qed.

Lemma callback_throws_iff (e : jsval) :
  (exists err, validateQuotes_callback e = Throw err) <->
  (e = JNull \/ e = JUndefined).
Proof.
  split.
  - intros (err & H).
    destruct e as [| |b|n|s|elems|props]; auto; try discriminate H.
    rewrite validateQuotes_callback_object in H. discriminate H.
  - intros [-> | ->]; eexists; reflexivity.
Qed.

Lemma every_true_iff (elems : list jsval) :
  every validateQuotes_callback elems = Return true <->
  Forall accepted_element elems.
Proof.
  induction elems as [|e elems IH]; simpl.
  - split; [constructor|reflexivity].
  - split.
    + intros H.
      destruct (validateQuotes_callback e) as [v|err] eqn:Hv; [|discriminate].
      destruct (truthy v) eqn:Ht; [|discriminate].
      constructor; [|apply IH, H].
      apply callback_accepts_iff. exists v. split; [exact Hv|exact Ht].
    + intros H. inversion H as [|? ? He Hrest]; subst.
      apply callback_accepts_iff in He as (v & Hv & Ht).
      rewrite Hv, Ht. apply IH, Hrest.
Qed.

Lemma every_throws_iff (elems : list jsval) :
  (exists err, every validateQuotes_callback elems = Throw err) <->
  (exists before x after,
      elems = (before ++ x :: after)%list /\
      Forall accepted_element before /\ (x = JNull \/ x = JUndefined)).
Proof.
  induction elems as [|e elems IH]; simpl.
  - split.
    + intros (err & H). discriminate H.
    + intros (before & x & after & H & _). destruct before; discriminate H.
  - split.
    + intros (err & H).
      destruct (validateQuotes_callback e) as [v|err'] eqn:Hv.
      * destruct (truthy v) eqn:Ht; [|discriminate].
        destruct (proj1 IH (ex_intro _ err H))
          as (before & x & after & -> & Hb & Hx).
        exists (e :: before), x, after. repeat split; auto.
        constructor; [|exact Hb].
        apply callback_accepts_iff. exists v. split; [exact Hv|exact Ht].
      * exists [], e, elems. repeat split; [constructor|].
        apply callback_throws_iff. exists err'. exact Hv.
    + intros (before & x & after & Heq & Hb & Hx).
      destruct before as [|b before]; simpl in Heq; injection Heq as -> ->.
      * apply callback_throws_iff in Hx as (err & Hx). rewrite Hx.
        exists err. reflexivity.
      * inversion Hb as [|? ? He Hrest]; subst.
        apply callback_accepts_iff in He as (v & Hv & Ht). rewrite Hv, Ht.
        apply IH. exists before, x, after. repeat split; assumption.
Qed.

(** X1. [validateQuotes] returns [true] exactly on the arrays whose
    elements are all objects with a truthy [quote], a truthy [author] and
    a [language] that is the string [fr] or [en]; the empty array is one
    of them. *)
Theorem validateQuotes_true_iff (quotes : jsval) :
  validateQuotes quotes = Return true <->
  exists elems, quotes = JArr elems /\ Forall accepted_element elems.
Proof.
  split.
  - intros H. destruct quotes as [| |b|n|s|elems|props]; try discriminate H.
    exists elems. split; [reflexivity|]. apply every_true_iff, H.
  - intros (elems & -> & H). apply every_true_iff, H.
Qed.

(** X2. [validateQuotes] throws exactly on the arrays in which the first
    element that is not accepted is [null] (or [undefined]): on any other
    value it returns a boolean. *)
Theorem validateQuotes_throws_iff (quotes : jsval) :
  (exists err, validateQuotes quotes = Throw err) <->
  (exists before x after,
      quotes = JArr (before ++ x :: after) /\
      Forall accepted_element before /\ (x = JNull \/ x = JUndefined)).
Proof.
  split.
  - intros (err & H).
    destruct quotes as [| |b|n|s|elems|props]; try discriminate H.
    destruct (proj1 (every_throws_iff elems) (ex_intro _ err H))
      as (before & x & after & -> & Hb & Hx).
    exists before, x, after. repeat split; assumption.
  - intros (before & x & after & -> & Hb & Hx).
    apply every_throws_iff. exists before, x, after. repeat split; assumption.
Qed.

(** ** The bulk import, from the request to the table *)

Lemma addManyQuotes_outcome (records : list jsval) (w : process) :
  (exists rows w',
      addManyQuotes records w
      = (Return (JObj [("success", JBool true);
                       ("count", JNum (Z.of_nat (List.length records)))]), w') /\
      Forall2 (fun record r => record_texts record = Return (texts_of r))
              records rows /\
      quotes (db w') = (quotes (db w) ++ rows)%list /\
      calls w' = Call_addManyQuotes :: calls w)
  \/
  (exists record e w',
      addManyQuotes records w
      = (Return (JObj [("success", JBool false);
                       ("error", JStr (err_message e))]), w') /\
      In record records /\ record_texts record = Throw e /\
      db w' = db w /\ calls w' = Call_addManyQuotes :: calls w).
Proof.
  unfold addManyQuotes, try_catch, transaction, bind, log_call, ret.
  match goal with
  | |- context [for_of records ?body ?w0] =>
      destruct (for_of_insertManyQuotes records w0)
        as [(rows & w' & Hrun & Hall & Hrows & Hc & _)
           |(before & bad & after & e & w' & Hrun & Hsplit & _ & Hbad & Hc & _)];
      rewrite Hrun
  end.
  - left. exists rows, w'. repeat split; auto.
  - right. exists bad, e. eexists. repeat split; eauto.
    rewrite Hsplit. apply in_elt.
Qed.

Lemma record_texts_fields (props : list (string * jsval)) :
  record_texts (JObj props) =
  match lookup "quote" props with
  | None => Throw (RangeError ("Missing named parameter " ++ dquote ++ "quote" ++ dquote))
  | Some vq =>
      match bind_value_from_js vq with
      | None => Throw (TypeError cannot_bind)
      | Some sq =>
          match lookup "author" props with
          | None => Throw (RangeError
                             ("Missing named parameter " ++ dquote ++ "author" ++ dquote))
          | Some va =>
              match bind_value_from_js va with
              | None => Throw (TypeError cannot_bind)
              | Some sa =>
                  match lookup "language" props with
                  | None => Throw (RangeError
                                     ("Missing named parameter " ++ dquote ++
                                      "language" ++ dquote))
                  | Some vl =>
                      match bind_value_from_js vl with
                      | None => Throw (TypeError cannot_bind)
                      | Some sl => new_row_texts sq sa sl
                      end
                  end
              end
          end
      end
  end.
Proof.
  unfold record_texts, Bind. cbn -[new_row_texts lookup bind_value_from_js].
  unfold BindValue.
  destruct (lookup "quote" props) as [vq|]; [|reflexivity].
  destruct (bind_value_from_js vq) as [sq|]; [|reflexivity].
  cbn -[new_row_texts lookup bind_value_from_js].
  destruct (lookup "author" props) as [va|]; [|reflexivity].
  destruct (bind_value_from_js va) as [sa|]; [|reflexivity].
  cbn -[new_row_texts lookup bind_value_from_js].
  destruct (lookup "language" props) as [vl|]; [|reflexivity].
  destruct (bind_value_from_js vl) as [sl|]; reflexivity.
Qed.

Lemma record_texts_text_record (e : jsval) (texts : string * string * string) :
  text_record e texts -> In (snd texts) ["fr"; "en"] ->
  record_texts e = Return texts.
Proof.
  destruct texts as [[q a] l]. intros (props & -> & Hq & Ha & Hl) Hin.
  cbn [fst snd] in *.
  rewrite record_texts_fields, Hq, Ha, Hl. cbn [bind_value_from_js].
  unfold new_row_texts. cbn [text_affinity].
  rewrite (proj2 (check_language_In l) Hin). reflexivity.
Qed.

Lemma text_record_accepted (e : jsval) (texts : string * string * string) :
  text_record e texts -> valid_texts texts -> accepted_element e.
Proof.
  destruct texts as [[q a] l]. intros (props & -> & Hq & Ha & Hl) (Vq & Va & Vl).
  cbn [fst snd] in *.
  exists props, l. unfold own_field. rewrite Hq, Ha, Hl.
  repeat split; try assumption; apply truthy_JStr; assumption.
Qed.

(** What the insert does with a record [validateQuotes] accepted: it
    stores it, or the binder refuses its quote or its author. *)
Lemma record_texts_accepted (e : jsval) :
  accepted_element e ->
  match record_texts e with
  | Return _ => ~ unbindable_record e
  | Throw err => err = TypeError cannot_bind /\ unbindable_record e
  end.
Proof.
  intros (props & l & -> & Hq & Ha & Hl & Hin).
  rewrite record_texts_fields. unfold own_field in *.
  destruct (lookup "quote" props) as [vq|] eqn:Lq; [|discriminate Hq].
  destruct (lookup "author" props) as [va|] eqn:La; [|discriminate Ha].
  destruct (lookup "language" props) as [vl|] eqn:Ll; [|discriminate Hl].
  subst vl.
  destruct (bind_value_from_js vq) as [sq|] eqn:Bq.
  - destruct (bind_value_from_js va) as [sa|] eqn:Ba.
    + cbn [bind_value_from_js]. unfold new_row_texts.
      assert (Tq : exists tq, text_affinity sq = Some tq).
      { destruct vq; try discriminate; injection Bq as <-; eexists; reflexivity. }
      assert (Ta : exists ta, text_affinity sa = Some ta).
      { destruct va; try discriminate; injection Ba as <-; eexists; reflexivity. }
      destruct Tq as [tq ->], Ta as [ta ->]. cbn [text_affinity].
      rewrite (proj2 (check_language_In l) Hin).
      intros (props' & Heq & H). injection Heq as Heq. subst props'.
      unfold own_field in H. rewrite Lq, La in H. destruct H; congruence.
    + split; [reflexivity|]. exists props. split; [reflexivity|].
      right. unfold own_field. rewrite La. exact Ba.
  - split; [reflexivity|]. exists props. split; [reflexivity|].
    left. unfold own_field. rewrite Lq. exact Bq.
Qed.
Lemma post_quotes_validated (env : environment) (elems : list jsval)
  (w : process) :
  validateQuotes (JArr elems) = Return true ->
  (exists rows w',
      app env (POST_quotes (JArr elems)) w =
        (mkResponse 200 (imported_body (List.length elems)), w') /\
      Forall2 (fun record r => record_texts record = Return (texts_of r))
              elems rows /\
      quotes (db w') = (quotes (db w) ++ rows)%list /\
      calls w' = Call_addManyQuotes :: calls w)
  \/
  (exists record e w',
      app env (POST_quotes (JArr elems)) w =
        (mkResponse 500 (import_failed_body (err_message e)), w') /\
      In record elems /\ record_texts record = Throw e /\
      db w' = db w /\ calls w' = Call_addManyQuotes :: calls w).
Proof.
  intros Hv.
  destruct (addManyQuotes_outcome elems w)
    as [(rows & w' & Hrun & Hall & Hrows & Hc)
       |(record & e & w' & Hrun & Hin & Hbad & Hdb & Hc)].
  - left. exists rows, w'. split; [|repeat split; assumption].
    unfold app. rewrite route_POST_quotes_parsed by reflexivity.
    unfold post_quotes, bind, lift. cbv zeta. rewrite Hv.
    cbv beta iota. cbn [negb array_elements]. rewrite Hrun. reflexivity.
  - right. exists record, e, w'. split; [|repeat split; assumption].
    unfold app. rewrite route_POST_quotes_parsed by reflexivity.
    unfold post_quotes, bind, lift. cbv zeta. rewrite Hv.
    cbv beta iota. cbn [negb array_elements]. rewrite Hrun. reflexivity.
Qed.

Lemma text_records_stored (elems : list jsval)
  (texts : list (string * string * string)) :
  Forall2 text_record elems texts -> Forall valid_texts texts ->
  Forall2 (fun e t => record_texts e = Return t) elems texts.
Proof.
  intros Hrec Hvalid.
  induction Hrec as [|e t elems texts He _ IH]; [constructor|].
  inversion Hvalid as [|? ? Ht Hrest]; subst.
  constructor; [|apply IH, Hrest].
  apply record_texts_text_record; [exact He|apply Ht].
Qed.

Lemma text_records_validated (elems : list jsval)
  (texts : list (string * string * string)) :
  Forall2 text_record elems texts -> Forall valid_texts texts ->
  validateQuotes (JArr elems) = Return true.
Proof.
  intros Hrec Hvalid. apply every_true_iff.
  induction Hrec as [|e t elems texts He _ IH]; [constructor|].
  inversion Hvalid as [|? ? Ht Hrest]; subst.
  constructor; [eapply text_record_accepted; eassumption|apply IH, Hrest].
Qed.

Lemma stored_rows_texts (elems : list jsval) (rows : list row) :
  Forall2 (fun record r => record_texts record = Return (texts_of r)) elems rows ->
  forall texts,
    Forall2 (fun e t => record_texts e = Return t) elems texts ->
    map texts_of rows = texts.
Proof.
  induction 1 as [|e r elems rows He _ IH]; intros texts Hstored;
    inversion Hstored as [|? t ? texts' Ht Hrest]; subst; [reflexivity|].
  simpl. rewrite (IH _ Hrest). f_equal. congruence.
Qed.

(** A bulk import of valid text records: the response and the rows. *)
Lemma post_quotes_text_records (env : environment) (elems : list jsval)
  (texts : list (string * string * string)) (w : process) :
  Forall2 text_record elems texts -> Forall valid_texts texts ->
  exists rows w',
    app env (POST_quotes (JArr elems)) w =
      (mkResponse 200 (imported_body (List.length elems)), w') /\
    quotes (db w') = (quotes (db w) ++ rows)%list /\
    map texts_of rows = texts.
Proof.
  intros Hrec Hvalid.
  pose proof (text_records_stored elems texts Hrec Hvalid) as Hstored.
  pose proof (text_records_validated elems texts Hrec Hvalid) as Hv.
  destruct (post_quotes_validated env elems w Hv)
    as [(rows & w' & Happ & Hall & Hrows & _)
       |(record & e & w' & _ & Hin & Hbad & _)].
  - exists rows, w'. split; [exact Happ|]. split; [exact Hrows|].
    eapply stored_rows_texts; eassumption.
  - exfalso. clear Hrec Hvalid Hv.
    induction Hstored as [|e' t elems texts He _ IH]; [contradiction|].
    destruct Hin as [<-|Hin]; [congruence|exact (IH Hin)].
Qed.

(** X3. A bulk import of records whose three fields are texts that
    satisfy the data model (non-empty quote and author, language [fr] or
    [en]) always succeeds: the answer is 200 with a message that gives
    the number of records, the table is the old one followed by one row
    per record, in the order of the payload, holding exactly the
    submitted texts, and list-all then shows the records it showed
    before together with the imported ones. *)
Theorem bulk_import_of_valid_records (env : environment) (elems : list jsval)
  (texts : list (string * string * string)) (w : process) :
  Forall2 text_record elems texts -> Forall valid_texts texts ->
  exists rows w' before w1 after w2,
    app env (POST_quotes (JArr elems)) w =
      (mkResponse 200 (imported_body (List.length elems)), w') /\
    quotes (db w') = (quotes (db w) ++ rows)%list /\
    map texts_of rows = texts /\
    getAllQuotes w = (Return before, w1) /\
    getAllQuotes w' = (Return after, w2) /\
    Permutation after
      (before ++ map (fun t => record (fst (fst t)) (snd (fst t)) (snd t)) texts).
Proof.
  intros Hrec Hvalid.
  destruct (post_quotes_text_records env elems texts w Hrec Hvalid)
    as (rows & w' & Happ & Hrows & Htexts).
  exists rows, w'. eexists _, _, _, _.
  split; [exact Happ|]. split; [exact Hrows|]. split; [exact Htexts|].
  split; [apply getAllQuotes_run|]. split; [apply getAllQuotes_run|].
  rewrite Hrows, <- Htexts, map_map.
  change (map (fun r => record (fst (fst (texts_of r))) (snd (fst (texts_of r)))
                               (snd (texts_of r))) rows)
    with (map row_object rows).
  rewrite <- map_app. apply Permutation_map.
  eapply Permutation_trans; [apply order_by_perm|].
  apply Permutation_app_tail, Permutation_sym, order_by_perm.
Qed.

(** X4. POST /quotes is all or nothing at the interface too.  Whatever
    the body, either the answer is 200, the body is an array and the
    table gained exactly one row per element; or the answer is 400 or 500
    and the database is exactly the one before the request. *)
Theorem bulk_import_all_or_nothing (env : environment) (req_body : jsval)
  (w : process) :
  (status (fst (app env (POST_quotes req_body) w)) = 200 /\
   exists elems rows,
     req_body = JArr elems /\
     quotes (db (snd (app env (POST_quotes req_body) w)))
       = (quotes (db w) ++ rows)%list /\
     List.length rows = List.length elems)
  \/
  ((status (fst (app env (POST_quotes req_body) w)) = 400 \/
    status (fst (app env (POST_quotes req_body) w)) = 500) /\
   db (snd (app env (POST_quotes req_body) w)) = db w).
Proof.
  destruct (express_json_cases req_body) as [Hparse|[e Hparse]].
  2:{ right. unfold app.
      rewrite (route_POST_quotes_refused env req_body e w Hparse).
      cbn [fst snd]. rewrite error_handler_response.
      split; [right; reflexivity|reflexivity]. }
  destruct (validateQuotes req_body) as [[|]|err] eqn:Hv.
  - destruct req_body as [| |b|n|s|elems|props]; try discriminate Hv.
    destruct (post_quotes_validated env elems w Hv)
      as [(rows & w' & Happ & Hall & Hrows & _)
         |(record & e & w' & Happ & _ & _ & Hdb & _)];
      rewrite Happ; cbn [fst snd status].
    + left. split; [reflexivity|]. exists elems, rows.
      repeat split; [exact Hrows|].
      symmetry. eapply Forall2_length, Hall.
    + right. split; [right; reflexivity|exact Hdb].
  - right. rewrite (post_quotes_invalid env req_body w Hparse Hv).
    split; [left; reflexivity|reflexivity].
  - right. unfold app. rewrite route_POST_quotes_parsed by exact Hparse.
    unfold post_quotes, bind, lift. rewrite Hv.
    cbn [fst snd]. rewrite error_handler_response.
    split; [right; reflexivity|reflexivity].
Qed.

(** X5. A payload [validateQuotes] accepted is imported unless one of
    its records has a quote or an author that cannot be bound (a boolean,
    an array or an object, which are truthy and so pass the validation):
    without such a record the answer is 200 and every record is stored;
    with one, the answer is 500 with the binder's message as [error] and
    nothing is stored. *)
Theorem validated_import_200_or_500 (env : environment) (elems : list jsval)
  (w : process) :
  validateQuotes (JArr elems) = Return true ->
  (~ Exists unbindable_record elems /\
   exists rows w',
     app env (POST_quotes (JArr elems)) w =
       (mkResponse 200 (imported_body (List.length elems)), w') /\
     quotes (db w') = (quotes (db w) ++ rows)%list /\
     List.length rows = List.length elems)
  \/
  (Exists unbindable_record elems /\
   exists w',
     app env (POST_quotes (JArr elems)) w =
       (mkResponse 500 (import_failed_body cannot_bind), w') /\
     db w' = db w).
Proof.
  intros Hv.
  assert (Hacc : Forall accepted_element elems)
    by (apply every_true_iff, Hv).
  destruct (post_quotes_validated env elems w Hv)
    as [(rows & w' & Happ & Hall & Hrows & _)
       |(record & e & w' & Happ & Hin & Hbad & Hdb & _)].
  - left. split.
    + intros Hex. apply Exists_exists in Hex as (x & Hx & Hun).
      rewrite Forall_forall in Hacc.
      pose proof (record_texts_accepted x (Hacc x Hx)) as Hcase.
      assert (Hret : exists t, record_texts x = Return t).
      { clear -Hall Hx. induction Hall as [|e r elems rows He _ IH];
          [contradiction|].
        destruct Hx as [<-|Hx]; [eexists; exact He|exact (IH Hx)]. }
      destruct Hret as [t Ht]. rewrite Ht in Hcase. exact (Hcase Hun).
    + exists rows, w'. repeat split; [exact Happ|exact Hrows|].
      symmetry. eapply Forall2_length, Hall.
  - right. rewrite Forall_forall in Hacc.
    pose proof (record_texts_accepted record (Hacc record Hin)) as Hcase.
    rewrite Hbad in Hcase. destruct Hcase as [-> Hun].
    split; [apply Exists_exists; exists record; split; assumption|].
    exists w'. split; [exact Happ|exact Hdb].
Qed.

(** ** The single insert, from the request to the table *)

Lemma NextAnonIndex_insertQuote (b : binder) :
  NextAnonIndex statements.insertQuote_params b = S (anon_index b).
Proof.
  unfold NextAnonIndex, statements.insertQuote_params.
  destruct (anon_index b) as [|[|[|[|n]]]]; cbn; f_equal; lia.
Qed.

Lemma BindValue_returns (ps : parameters) (v : jsval) (i : nat) (b b' : binder) :
  BindValue ps v i b = Return b' ->
  exists sv,
    bind_value_from_js v = Some sv /\
    b' = mkBinder (anon_index b) (count b) (bound_object b) ((i, sv) :: bound b).
Proof.
  unfold BindValue. destruct (bind_value_from_js v) as [sv|]; [|discriminate].
  destruct (_ && _)%bool; [|discriminate].
  intros H. injection H as <-. exists sv. split; reflexivity.
Qed.

(** With positional parameters only, the binder has bound as many values
    as the index it has reached. *)
Lemma BindArray_insertQuote (elems : list jsval) :
  forall b b',
    BindArray statements.insertQuote_params elems b = Return b' ->
    anon_index b = count b -> anon_index b' = count b'.
Proof.
  induction elems as [|v elems IH]; intros b b' H Hinv; simpl in H.
  - injection H as <-. exact Hinv.
  - rewrite NextAnonIndex_insertQuote in H.
    destruct (BindValue _ v _ _) as [b1|] eqn:Hv; [|discriminate].
    apply BindValue_returns in Hv as (sv & _ & ->).
    apply IH in H; [exact H|]. cbn. f_equal. exact Hinv.
Qed.

Lemma BindArgs_insertQuote (args : list jsval) :
  forall b b',
    BindArgs statements.insertQuote_params args b = Return b' ->
    anon_index b = count b -> anon_index b' = count b'.
Proof.
  induction args as [|v args IH]; intros b b' H Hinv.
  - injection H as <-. exact Hinv.
  - destruct v as [| |x|x|x|elems|props]; cbn [BindArgs] in H;
      try (rewrite NextAnonIndex_insertQuote in H;
           destruct (BindValue _ _ _ _) as [b1|] eqn:Hv; [|discriminate];
           apply BindValue_returns in Hv as (sv & _ & ->);
           apply IH in H; [exact H|cbn; f_equal; exact Hinv]).
    + destruct (BindArray _ elems b) as [b1|] eqn:Ha; [|discriminate].
      apply IH in H; [exact H|].
      eapply BindArray_insertQuote; eassumption.
    + destruct (bound_object b); [discriminate|].
      cbn in H. apply IH in H; [exact H|exact Hinv].
Qed.

Lemma BindArgs_app (ps : parameters) (xs ys : list jsval) :
  forall b,
    BindArgs ps (xs ++ ys) b =
    match BindArgs ps xs b with
    | Return b' => BindArgs ps ys b'
    | Throw e => Throw e
    end.
Proof.
  induction xs as [|v xs IH]; intros b; [reflexivity|].
  destruct v as [| |x|x|x|elems|props]; cbn [List.app BindArgs];
    try (destruct (BindValue _ _ _ _); [apply IH|reflexivity]).
  - destruct (BindArray ps elems b); [apply IH|reflexivity].
  - destruct (bound_object b); [reflexivity|].
    destruct (BindObject _ _ _ _); [apply IH|reflexivity].
Qed.

(** Whatever [quote] and [author] are, when [insertQuote.run(quote,
    author, language)] binds, its third parameter is the language. *)
Lemma Bind_insertQuote_language (quote author : jsval) (l : string)
  (bs : list (nat * sqlval)) :
  Bind statements.insertQuote_params [quote; author; JStr l] = Return bs ->
  parameter 3 bs = SqlText l.
Proof.
  unfold Bind.
  change [quote; author; JStr l] with ([quote; author] ++ [JStr l])%list.
  rewrite BindArgs_app.
  destruct (BindArgs _ [quote; author] new_binder) as [b2|] eqn:H2;
    [|discriminate].
  apply BindArgs_insertQuote in H2; [|reflexivity].
  cbn [BindArgs]. rewrite NextAnonIndex_insertQuote.
  unfold BindValue. cbn [bind_value_from_js].
  destruct (_ && _)%bool; [|discriminate].
  cbn [count bound anon_index bound_object].
  destruct (Nat.eqb_spec (S (count b2)) (List.length statements.insertQuote_params))
    as [Hc|Hc].
  - intros H. injection H as <-. rewrite H2.
    cbn in Hc. injection Hc as ->. reflexivity.
  - destruct (_ <? _)%nat; [destruct (_ && _)%bool|]; discriminate.
Qed.

Lemma addQuote_outcome (quote author : jsval) (l : string) (w : process) :
  (exists q a,
      addQuote quote author (JStr l) w =
        (Return tt,
         mkProcess (append_row (q, a, l) (db w)) (Call_addQuote :: calls w)
                   (random w) (drawn w)) /\
      In l ["fr"; "en"])
  \/
  (exists e,
      addQuote quote author (JStr l) w =
        (Throw e,
         mkProcess (db w) (Call_addQuote :: calls w) (random w) (drawn w))).
Proof.
  unfold addQuote, statements.insertQuote_run, statements.run_insert,
    bind, log_call, lift, read_db, write_db, set_db, insert_into_quotes.
  cbv beta iota. cbn [db calls random drawn].
  destruct (Bind _ [quote; author; JStr l]) as [bs|e] eqn:Hb.
  - rewrite (Bind_insertQuote_language _ _ _ _ Hb).
    unfold new_row_texts. cbn [text_affinity].
    destruct (text_affinity (parameter 1 bs)) as [q|];
      [|right; eexists; reflexivity].
    destruct (text_affinity (parameter 2 bs)) as [a|];
      [|right; eexists; reflexivity].
    destruct (check_language l) eqn:Hl; [|right; eexists; reflexivity].
    left. exists q, a. split; [reflexivity|apply check_language_In, Hl].
  - right. eexists. reflexivity.
Qed.
(** X6. Whatever the body, POST /:language/quote either answers 201,
    echoing the [quote] and [author] it read from the body with the
    language of the path, and the table gained exactly one row, at its
    end, with a fresh rowid and the path's language, which is [fr] or
    [en]; or it answers something else and the database is exactly the
    one before the request. *)
Theorem single_insert_one_row (env : environment) (language : string)
  (req_body : jsval) (w : process) :
  (exists quote author q a,
      destructure req_body "quote" = Return quote /\
      destructure req_body "author" = Return author /\
      fst (app env (POST_language_quote language req_body) w)
        = quote_added quote author language /\
      In language ["fr"; "en"] /\
      db (snd (app env (POST_language_quote language req_body) w))
        = append_row (q, a, language) (db w))
  \/
  (status (fst (app env (POST_language_quote language req_body) w)) <> 201 /\
   db (snd (app env (POST_language_quote language req_body) w)) = db w).
Proof.
  destruct (express_json_cases req_body) as [Hparse|[e Hparse]].
  2:{ right. unfold app.
      rewrite (route_POST_language_quote_refused env language req_body e w Hparse).
      cbn [fst snd]. rewrite error_handler_response.
      split; [discriminate|reflexivity]. }
  unfold app. rewrite route_POST_language_quote_parsed by exact Hparse.
  unfold post_language_quote, validateLanguage.
  destruct (includes_fr_en (JStr language)); cbn [negb];
    [|right; split; [discriminate|reflexivity]].
  unfold try_catch, bind, lift.
  destruct (destructure req_body "quote") as [quote|e] eqn:Dq; cbv beta iota.
  2:{ right. cbn [fst snd]. rewrite error_handler_response.
      split; [discriminate|reflexivity]. }
  destruct (destructure req_body "author") as [author|e] eqn:Da; cbv beta iota.
  2:{ right. cbn [fst snd]. rewrite error_handler_response.
      split; [discriminate|reflexivity]. }
  destruct (negb (truthy quote) || negb (truthy author))%bool;
    [right; split; [discriminate|reflexivity]|].
  destruct (addQuote_outcome quote author language w)
    as [(q & a & Hrun & Hin)|(e & Hrun)]; rewrite !Hrun.
  - left. exists quote, author, q, a. repeat split. exact Hin.
  - right. split; [discriminate|reflexivity].
Qed.

(** ** Rows are only ever added *)

Lemma append_rows_app (ts1 ts2 : list (string * string * string)) (d : database) :
  append_rows (ts1 ++ ts2) d = append_rows ts2 (append_rows ts1 d).
Proof. apply fold_left_app. Qed.

Lemma appends_ret {A} (a : A) : appends (ret a).
Proof. intros w. exists []. reflexivity. Qed.

Lemma appends_lift {A} (o : outcome A) : appends (lift o).
Proof. intros w. exists []. reflexivity. Qed.

Lemma appends_log_call (c : storage_call) : appends (log_call c).
Proof. intros w. exists []. reflexivity. Qed.

Lemma appends_bind {A B} (c : js A) (k : A -> js B) :
  appends c -> (forall a, appends (k a)) -> appends (bind c k).
Proof.
  intros Hc Hk w. unfold bind. destruct (Hc w) as [ts1 H1].
  destruct (c w) as [[a|e] w1]; cbn [snd] in *.
  - destruct (Hk a w1) as [ts2 H2]. exists (ts1 ++ ts2)%list.
    rewrite H2, H1, append_rows_app. reflexivity.
  - exists ts1. exact H1.
Qed.

Lemma appends_try_catch {A} (c : js A) (h : jserror -> js A) :
  appends c -> (forall e, appends (h e)) -> appends (try_catch c h).
Proof.
  intros Hc Hh w. unfold try_catch. destruct (Hc w) as [ts1 H1].
  destruct (c w) as [[a|e] w1]; cbn [snd] in *.
  - exists ts1. exact H1.
  - destruct (Hh e w1) as [ts2 H2]. exists (ts1 ++ ts2)%list.
    rewrite H2, H1, append_rows_app. reflexivity.
Qed.

Lemma appends_transaction {A} (c : js A) : appends c -> appends (transaction c).
Proof.
  intros Hc w. unfold transaction. destruct (Hc w) as [ts H].
  destruct (c w) as [[a|e] w1]; cbn [snd] in *.
  - exists ts. exact H.
  - exists []. reflexivity.
Qed.

Lemma appends_for_of {A} (xs : list A) (body : A -> js unit) :
  (forall x, appends (body x)) -> appends (for_of xs body).
Proof.
  intros Hb. induction xs as [|x xs IH]; simpl.
  - apply appends_ret.
  - apply appends_bind; [apply Hb|intros _; exact IH].
Qed.

Lemma appends_validateLanguage (l : string) (next : js response) :
  appends next -> appends (validateLanguage l next).
Proof.
  intros H. unfold validateLanguage.
  destruct (negb _); [apply appends_ret|exact H].
Qed.

Lemma appends_run_insert (ps : parameters) (args : list jsval) :
  appends (statements.run_insert ps args).
Proof.
  intros w.
  unfold statements.run_insert, bind, lift, read_db, write_db,
    insert_into_quotes.
  destruct (Bind ps args) as [bs|e]; [|exists []; reflexivity].
  cbv beta iota.
  destruct (new_row_texts _ _ _) as [t|e]; [|exists []; reflexivity].
  exists [t]. reflexivity.
Qed.

Lemma appends_addManyQuotes (records : list jsval) :
  appends (addManyQuotes records).
Proof.
  unfold addManyQuotes.
  apply appends_bind; [apply appends_log_call|]. intros _.
  apply appends_try_catch; [|intros e; apply appends_ret].
  apply appends_bind; [|intros _; apply appends_ret].
  apply appends_transaction, appends_for_of.
  intros record. apply appends_run_insert.
Qed.

(** The routes of the two GET listings, of the random quote, of the
    health check and of the documentation, and the 404 handler, leave the
    database as it is. *)
Lemma read_routes_keep_db (env : environment) (r : request) (w : process) :
  (forall req_body, r <> POST_quotes req_body) ->
  (forall l req_body, r <> POST_language_quote l req_body) ->
  db (snd (route env r w)) = db w.
Proof.
  intros Hbulk Hone.
  destruct r as [| | |req_body|l|l|l req_body| |message]; cbn [route];
    try reflexivity.
  - unfold get_quotes, bind. rewrite getAllQuotes_run.
    destruct (_ =? _)%nat; reflexivity.
  - exfalso. eapply Hbulk. reflexivity.
  - unfold get_language_quotes, validateLanguage.
    destruct (negb _); [reflexivity|].
    unfold bind. rewrite getQuotesByLanguage_run.
    destruct (_ =? _)%nat; reflexivity.
  - unfold get_language_quote, validateLanguage.
    destruct (negb _); [reflexivity|].
    unfold bind. rewrite getRandomQuote_run. cbv zeta.
    destruct (negb _); reflexivity.
  - exfalso. eapply Hone. reflexivity.
Qed.

Lemma appends_route (env : environment) (r : request) : appends (route env r).
Proof.
  destruct r as [| | |req_body|l|l|l req_body| |message];
    try (intros w; exists []; cbn [append_rows fold_left];
         apply read_routes_keep_db; intros; discriminate).
  - cbn [route]. apply appends_bind; [apply appends_lift|]. intros parsed.
    unfold post_quotes.
    apply appends_bind; [apply appends_lift|].
    intros valid. destruct (negb valid); [apply appends_ret|].
    apply appends_bind; [apply appends_addManyQuotes|].
    intros result.
    repeat (apply appends_bind; [apply appends_lift|]; intros ?).
    apply appends_ret.
  - cbn [route]. apply appends_bind; [apply appends_lift|]. intros parsed.
    unfold post_language_quote.
    apply appends_validateLanguage.
    apply appends_bind; [apply appends_lift|]. intros quote.
    apply appends_bind; [apply appends_lift|]. intros author.
    destruct (_ || _)%bool; [apply appends_ret|].
    apply appends_try_catch; [|intros e; apply appends_ret].
    apply appends_bind; [|intros _; apply appends_ret].
    unfold addQuote.
    apply appends_bind; [apply appends_log_call|]. intros _.
    apply appends_run_insert.
Qed.

Lemma appends_serve (env : environment) (rs : list request) :
  forall w, exists ts, db (serve env rs w) = append_rows ts (db w).
Proof.
  induction rs as [|r rs IH]; intros w; simpl.
  - exists []. reflexivity.
  - destruct (appends_route env r w) as [ts1 H1].
    assert (Happ : db (snd (app env r w)) = append_rows ts1 (db w)).
    { unfold app. destruct (route env r w) as [[res|err] w1]; exact H1. }
    destruct (IH (snd (app env r w))) as [ts2 H2].
    exists (ts1 ++ ts2)%list. rewrite H2, Happ, append_rows_app. reflexivity.
Qed.

Lemma quotes_append_rows (ts : list (string * string * string)) :
  forall d, exists added,
    quotes (append_rows ts d) = (quotes d ++ added)%list /\
    map texts_of added = ts.
Proof.
  induction ts as [|t ts IH]; intros d.
  - exists []. cbn. rewrite app_nil_r. split; reflexivity.
  - destruct (IH (append_row t d)) as (added & Hq & Ht).
    destruct (texts_of_append_row t d) as (r & Hr & Htr).
    exists (r :: added). split.
    + change (append_rows (t :: ts) d) with (append_rows ts (append_row t d)).
      rewrite Hq, Hr, <- app_assoc. reflexivity.
    + simpl. rewrite Htr, Ht. reflexivity.
Qed.

(** X7. No request updates or deletes a row: after any sequence of
    requests, served on any database, the table is the one before,
    row for row, followed by the rows that were added. *)
Theorem rows_are_only_added (env : environment) (rs : list request)
  (w : process) :
  exists added,
    quotes (db (serve env rs w)) = (quotes (db w) ++ added)%list.
Proof.
  destruct (appends_serve env rs w) as [ts H].
  destruct (quotes_append_rows ts (db w)) as (added & Hq & _).
  exists added. rewrite H. exact Hq.
Qed.







(** X9. The GET routes, and a request that matches no route, never
    change the database, whatever they answer: the health check, the
    documentation, both listings and the random quote (for every
    language segment, supported or not). *)
Theorem gets_keep_the_database (env : environment) (language : string)
  (w : process) :
  db (snd (app env GET_health w)) = db w /\
  db (snd (app env GET_documentation w)) = db w /\
  db (snd (app env GET_quotes w)) = db w /\
  db (snd (app env (GET_language_quotes language) w)) = db w /\
  db (snd (app env (GET_language_quote language) w)) = db w /\
  db (snd (app env Unmatched w)) = db w.
Proof.
  assert (Hread : forall r,
    (forall req_body, r <> POST_quotes req_body) ->
    (forall l req_body, r <> POST_language_quote l req_body) ->
    db (snd (app env r w)) = db w).
  { intros r Hb Ho. pose proof (read_routes_keep_db env r w Hb Ho) as H.
    unfold app. destruct (route env r w) as [[res|err] w1]; exact H. }
  repeat split; apply Hread; intros; discriminate.
Qed.

(** ** The status codes *)

Lemma post_language_quote_status (language : string) (req_body : jsval)
  (w w' : process) (res : response) :
  post_language_quote language req_body w = (Return res, w') ->
  In (status res) [200; 201; 400; 404; 500].
Proof.
  unfold post_language_quote, validateLanguage.
  destruct (includes_fr_en (JStr language)); cbn [negb].
  - unfold try_catch, bind, lift.
    destruct (destructure req_body "quote") as [quote|e]; [|discriminate].
    destruct (destructure req_body "author") as [author|e]; cbv beta iota;
      [|discriminate].
    destruct (negb (truthy quote) || negb (truthy author))%bool.
    + intros H. injection H as <- _. in_codes.
    + destruct (addQuote quote author (JStr language) w) as [[[]|e] w1];
        intros H; injection H as <- _; in_codes.
  - intros H. injection H as <- _. in_codes.
Qed.

Lemma post_quotes_status (req_body : jsval) (w w' : process) (res : response) :
  post_quotes req_body w = (Return res, w') ->
  In (status res) [200; 201; 400; 404; 500].
Proof.
  unfold post_quotes, bind, lift. cbv zeta.
  destruct (validateQuotes req_body) as [[|]|e]; cbn [negb]; cbv beta iota;
    [| |discriminate].
  - destruct (addManyQuotes_result (array_elements req_body) w)
      as [w1 [Hok|[e Hfail]]].
    + rewrite Hok. cbn. intros H. injection H as <- _. in_codes.
    + rewrite Hfail. cbn -[truthy]. intros H. injection H as <- _. in_codes.
  - intros H. injection H as <- _. in_codes.
Qed.

(** X10. Every request, whatever its route, its path parameter and its
    body, in every state and environment, is answered with one of the
    five status codes 200, 201, 400, 404 and 500. *)
Theorem status_codes (env : environment) (r : request) (w : process) :
  In (status (fst (app env r w))) [200; 201; 400; 404; 500].
Proof.
  unfold app. destruct (route env r w) as [[res|err] w'] eqn:Hroute; cbn [fst].
  2:{ rewrite error_handler_response. in_codes. }
  destruct r as [| | |req_body|language|language|language req_body| |message];
    cbn [route] in Hroute.
  - injection Hroute as <- _. in_codes.
  - injection Hroute as <- _. in_codes.
  - unfold get_quotes, bind in Hroute. rewrite getAllQuotes_run in Hroute.
    destruct (_ =? _)%nat; injection Hroute as <- _; in_codes.
  - change (route env (POST_quotes req_body) w = (Return res, w')) in Hroute.
    destruct (express_json_cases req_body) as [Hparse|[e Hparse]].
    + rewrite route_POST_quotes_parsed in Hroute by exact Hparse.
      eapply post_quotes_status, Hroute.
    + rewrite (route_POST_quotes_refused env req_body e w Hparse) in Hroute.
      discriminate Hroute.
  - unfold get_language_quotes, validateLanguage in Hroute.
    destruct (negb _).
    + injection Hroute as <- _. in_codes.
    + unfold bind in Hroute. rewrite getQuotesByLanguage_run in Hroute.
      destruct (_ =? _)%nat; injection Hroute as <- _; in_codes.
  - unfold get_language_quote, validateLanguage in Hroute.
    destruct (negb _).
    + injection Hroute as <- _. in_codes.
    + unfold bind in Hroute. rewrite getRandomQuote_run in Hroute.
      cbv zeta in Hroute.
      destruct (negb _); injection Hroute as <- _; in_codes.
  - change (route env (POST_language_quote language req_body) w
            = (Return res, w')) in Hroute.
    destruct (express_json_cases req_body) as [Hparse|[e Hparse]].
    + rewrite route_POST_language_quote_parsed in Hroute by exact Hparse.
      eapply post_language_quote_status, Hroute.
    + rewrite (route_POST_language_quote_refused env language req_body e w Hparse)
        in Hroute.
      discriminate Hroute.
  - injection Hroute as <- _. in_codes.
  - discriminate Hroute.
Qed.

(** ** [addQuote] at the storage boundary *)

(** X11. Whatever three values [addQuote] is given, it either throws
    and leaves the database as it was, or returns having added exactly
    one row, at the end of the table, with the next rowid and a language
    that is [fr] or [en]. *)
Theorem addQuote_adds_one_supported_row (quote author language : jsval)
  (w : process) :
  (exists q a l,
      addQuote quote author language w
        = (Return tt, after_addQuote (append_row (q, a, l) (db w)) w) /\
      In l ["fr"; "en"])
  \/
  (exists e,
      addQuote quote author language w = (Throw e, after_addQuote (db w) w)).
Proof.
  unfold addQuote, statements.insertQuote_run, statements.run_insert,
    bind, log_call, lift, read_db, write_db, set_db, insert_into_quotes,
    after_addQuote.
  cbv beta iota. cbn [db calls random drawn].
  destruct (Bind _ [quote; author; language]) as [bs|e];
    [|right; eexists; reflexivity].
  destruct (new_row_texts _ _ _) as [[[q a] l]|e] eqn:Hnew;
    [|right; eexists; reflexivity].
  left. exists q, a, l. split; [reflexivity|].
  apply new_row_texts_ok in Hnew. apply Hnew.
Qed.

(** X12. Given three texts, [addQuote] stores them as they are when the
    language is [fr] or [en], and otherwise throws the error of the
    [CHECK] constraint and changes nothing; the empty text is stored as
    any other.  Given [null] as quote or as author, it throws the error
    of the [NOT NULL] constraint of that column. *)
Theorem addQuote_on_texts (q a l : string) (w : process) :
  addQuote (JStr q) (JStr a) (JStr l) w =
    (if check_language l
     then (Return tt, after_addQuote (append_row (q, a, l) (db w)) w)
     else (Throw (SqliteError check_failed), after_addQuote (db w) w)) /\
  addQuote JNull (JStr a) (JStr l) w =
    (Throw (SqliteError "NOT NULL constraint failed: quotes.quote"),
     after_addQuote (db w) w) /\
  addQuote (JStr q) JNull (JStr l) w =
    (Throw (SqliteError "NOT NULL constraint failed: quotes.author"),
     after_addQuote (db w) w).
Proof.
  unfold addQuote, statements.insertQuote_run, statements.run_insert,
    bind, log_call, lift, read_db, write_db, set_db, insert_into_quotes,
    after_addQuote.
  repeat split; cbn -[check_language append_row].
  destruct (check_language l); reflexivity.
Qed.

(** ** The listings together *)

Lemma filter_languages_perm (rows : list row) :
  Forall language_ok rows ->
  Permutation rows
    (filter (fun r => String.eqb (language r) "en") rows ++
     filter (fun r => String.eqb (language r) "fr") rows).
Proof.
  induction 1 as [|r rows Hr _ IH]; simpl; [constructor|].
  destruct Hr as [Hfr|[Hen|[]]].
  - rewrite <- Hfr. simpl. apply Permutation_cons_app. exact IH.
  - rewrite <- Hen. simpl. apply perm_skip. exact IH.
Qed.

(** X13. In every state reached from a new database, each quote is in
    exactly one of the two language listings: the rows of list-all are,
    up to their order, the rows of the English listing and those of the
    French listing together, and so the three counts add up. *)
Theorem listings_partition (env : environment) (rs : list request)
  (random : nat -> Z) :
  let w := serve env rs (start random) in
  exists all en fr w1 w2 w3,
    getAllQuotes w = (Return all, w1) /\
    getQuotesByLanguage (JStr "en") w = (Return en, w2) /\
    getQuotesByLanguage (JStr "fr") w = (Return fr, w3) /\
    Permutation all (en ++ fr) /\
    List.length all = (List.length en + List.length fr)%nat.
Proof.
  intros w.
  assert (Hperm :
    Permutation
      (map row_object (order_by language_author_leb (quotes (db w))))
      (map row_object
         (order_by author_leb
            (filter (fun r => String.eqb (language r) "en") (quotes (db w)))) ++
       map row_object
         (order_by author_leb
            (filter (fun r => String.eqb (language r) "fr") (quotes (db w)))))).
  { rewrite <- map_app. apply Permutation_map.
    eapply Permutation_trans; [apply order_by_perm|].
    eapply Permutation_trans;
      [apply filter_languages_perm, language_invariant|].
    apply Permutation_app; apply Permutation_sym, order_by_perm. }
  eexists _, _, _, _, _, _.
  split; [apply getAllQuotes_run|].
  split; [apply getQuotesByLanguage_run|].
  split; [apply getQuotesByLanguage_run|].
  split; [exact Hperm|].
  rewrite (Permutation_length Hperm), length_app. reflexivity.
Qed.

(** X14. For a supported language, the random quote and the listing
    agree: when the listing of that language is empty both routes answer
    404 with the same message; otherwise the listing answers 200 and the
    random route answers 200 with one of the records of the listing. *)
Theorem random_quote_is_listed (env : environment) (l : string)
  (w : process) :
  In l ["fr"; "en"] ->
  exists rows w1,
    getQuotesByLanguage (JStr l) w = (Return rows, w1) /\
    ((rows = [] /\
      fst (app env (GET_language_quote l) w)
        = mkResponse 404 (none_in_language l) /\
      fst (app env (GET_language_quotes l) w)
        = mkResponse 404 (none_in_language l))
     \/
     (rows <> [] /\
      status (fst (app env (GET_language_quotes l) w)) = 200 /\
      exists b, In b rows /\
                fst (app env (GET_language_quote l) w) = mkResponse 200 b)).
Proof.
  intros Hin. eexists _, _. split; [apply getQuotesByLanguage_run|].
  unfold app, route, get_language_quote, get_language_quotes.
  rewrite !validateLanguage_accept by exact Hin.
  unfold bind. rewrite getQuotesByLanguage_run, getRandomQuote_run. cbv zeta.
  set (matching := filter (fun r => String.eqb (language r) l)
                          (quotes (db w))).
  set (keys := map (random w) (seq (drawn w) (List.length matching))).
  destruct matching as [|r0 rest] eqn:Hm.
  - left. repeat split.
  - right. rewrite <- Hm.
    assert (Hrows : map row_object (order_by author_leb matching) <> []).
    { intros Hnil. apply map_eq_nil in Hnil.
      pose proof (order_by_length author_leb matching) as Hlen.
      rewrite Hnil, Hm in Hlen. discriminate Hlen. }
    split; [exact Hrows|]. split.
    + destruct (map row_object (order_by author_leb matching));
        [contradiction|reflexivity].
    + destruct (chosen_position_some keys (List.length matching))
        as (i & Hi & Hc).
      * unfold keys. rewrite length_map, length_seq, Hm. reflexivity.
      * rewrite Hm. simpl. lia.
      * destruct (nth_error matching i) as [r|] eqn:Hr;
          [|apply nth_error_None in Hr; lia].
        exists (row_object r). split.
        -- apply in_map. eapply Permutation_in;
             [apply Permutation_sym, order_by_perm|].
           eapply nth_error_In, Hr.
        -- rewrite Hm in Hc, Hr. subst keys. rewrite Hm.
           rewrite order_by_random_limit_1_position, Hc, Hr. reflexivity.
Qed.

(** ** The invariants, from any state *)

(** X15. The languages stay in [{fr, en}]: if every row of the table has
    its language in [{fr, en}], so has every row after any sequence of
    requests, whatever their routes, parameters and bodies. *)
Theorem languages_stay_supported (env : environment) (rs : list request)
  (w : process) :
  Forall language_ok (quotes (db w)) ->
  Forall language_ok (quotes (db (serve env rs w))).
Proof.
  revert w. induction rs as [|r rs IH]; intros w Hok; simpl; [exact Hok|].
  apply IH, app_preserves; [apply route_language|exact Hok].
Qed.

(** X16. The invariant of the data model is kept by every sequence of
    requests in which no single insert has an array as [quote] or as
    [author]: if every row has a language in [{fr, en}], a non-empty
    quote and a non-empty author, so has every row afterwards. *)
Theorem rows_stay_valid_without_array_fields (env : environment)
  (rs : list request) (w : process) :
  Forall no_array_field rs ->
  Forall row_ok (quotes (db w)) ->
  Forall row_ok (quotes (db (serve env rs w))).
Proof.
  intros Hrs. revert w.
  induction Hrs as [|r rs Hr _ IH]; intros w Hok; simpl; [exact Hok|].
  apply IH, app_preserves; [apply route_row_ok, Hr|exact Hok].
Qed.

(** ** The single insert and its required fields *)

(** X17. On a supported language, the single insert settles a body
    that lacks a required field before any storage method is called, the
    process state unchanged.  A JSON object whose [quote] or [author] is
    absent or falsy ([null], the empty string, [0], [false]) and every
    JSON array are answered 400 with the list of the required fields.  A
    request without a body leaves [req.body] undefined: the destructuring
    throws and the global error handler answers 500.  A body the JSON
    parser refuses (a scalar such as [null] or a string) is answered 500
    by the same handler, with the parser's error. *)
Theorem single_insert_missing_fields (env : environment) (language : string)
  (w : process) :
  In language ["fr"; "en"] ->
  (forall props,
      truthy (own_field "quote" props) = false \/
      truthy (own_field "author" props) = false ->
      app env (POST_language_quote language (JObj props)) w
        = (missing_fields, w)) /\
  (forall elems,
      app env (POST_language_quote language (JArr elems)) w
        = (missing_fields, w)) /\
  (app env (POST_language_quote language JUndefined) w
     = (error_handler env destructure_undefined, w) /\
   status (error_handler env destructure_undefined) = 500) /\
  (forall sent err,
      express_json sent = Throw err ->
      app env (POST_language_quote language sent) w
        = (error_handler env err, w) /\
      status (error_handler env err) = 500).
Proof.
  intros Hin. repeat split.
  - intros props Hfalsy. unfold app.
    rewrite route_POST_language_quote_parsed by reflexivity.
    unfold post_language_quote.
    rewrite validateLanguage_accept by exact Hin.
    unfold bind, lift, destructure, get_prop.
    fold (own_field "quote" props). fold (own_field "author" props).
    destruct Hfalsy as [-> | ->]; [|rewrite orb_true_r]; reflexivity.
  - intros elems. unfold app.
    rewrite route_POST_language_quote_parsed by reflexivity.
    unfold post_language_quote.
    rewrite validateLanguage_accept by exact Hin. reflexivity.
  - unfold app. rewrite route_POST_language_quote_parsed by reflexivity.
    unfold post_language_quote.
    rewrite validateLanguage_accept by exact Hin. reflexivity.
  - unfold app.
    rewrite (route_POST_language_quote_refused env language sent err w H).
    reflexivity.
Qed.

Lemma single_insert_missing_fields_witness :
  In "en" ["fr"; "en"] /\
  app example_env
      (POST_language_quote "en"
         (JObj [("quote", JStr ""); ("author", JStr "Jobs")]))
      example_start
    = (missing_fields, example_start) /\
  app example_env (POST_language_quote "en" (JArr [])) example_start
    = (missing_fields, example_start) /\
  app example_env (POST_language_quote "en" JUndefined) example_start
    = (mkResponse 500 (JObj [("error", JStr internal_server_error)]),
       example_start) /\
  app example_env (POST_language_quote "en" JNull) example_start
    = (mkResponse 500 (JObj [("error", JStr internal_server_error)]),
       example_start).
Proof.
  assert (Hin : In "en" ["fr"; "en"]) by (simpl; auto).
  destruct (single_insert_missing_fields example_env "en" example_start Hin)
    as (Hobject & Harray & [Hnone _] & Hrefused).
  split; [exact Hin|].
  split; [apply Hobject; left; reflexivity|].
  split; [apply Harray|].
  split; [exact Hnone|].
  exact (proj1 (Hrefused JNull _ eq_refl)).
Defined.

(** ** Instances *)

Lemma example_records_are_texts : Forall2 text_record example_records example_texts.
Proof.
  repeat constructor; eexists; repeat split.
Qed.

Lemma example_texts_are_valid : Forall valid_texts example_texts.
Proof.
  repeat apply Forall_cons; try apply Forall_nil;
    unfold valid_texts; simpl; (split; [discriminate|split; [discriminate|auto]]).
Qed.

Lemma bulk_import_of_valid_records_witness :
  Forall2 text_record example_records example_texts /\
  Forall valid_texts example_texts /\
  exists rows w' before w1 after w2,
    app example_env (POST_quotes (JArr example_records)) example_two_quotes =
      (mkResponse 200 (imported_body (List.length example_records)), w') /\
    quotes (db w') = (quotes (db example_two_quotes) ++ rows)%list /\
    map texts_of rows = example_texts /\
    getAllQuotes example_two_quotes = (Return before, w1) /\
    getAllQuotes w' = (Return after, w2) /\
    Permutation after
      (before ++
       map (fun t => record (fst (fst t)) (snd (fst t)) (snd t)) example_texts).
Proof.
  split; [exact example_records_are_texts|].
  split; [exact example_texts_are_valid|].
  exact (bulk_import_of_valid_records example_env example_records example_texts
           example_two_quotes example_records_are_texts example_texts_are_valid).
Defined.

Lemma validated_import_200_or_500_witness :
  validateQuotes (JArr example_unbindable_records) = Return true /\
  Exists unbindable_record example_unbindable_records /\
  exists w',
    app example_env (POST_quotes (JArr example_unbindable_records))
        example_two_quotes
      = (mkResponse 500 (import_failed_body cannot_bind), w') /\
    db w' = db example_two_quotes.
Proof.
  assert (Hv : validateQuotes (JArr example_unbindable_records) = Return true)
    by reflexivity.
  split; [exact Hv|].
  destruct (validated_import_200_or_500 example_env example_unbindable_records
              example_two_quotes Hv) as [[Hnone _]|Hsome].
  - exfalso. apply Hnone. apply Exists_cons_tl, Exists_cons_hd.
    eexists. split; [reflexivity|]. left. reflexivity.
  - exact Hsome.
Defined.

Lemma random_quote_is_listed_witness :
  In "en" ["fr"; "en"] /\
  exists rows w1,
    getQuotesByLanguage (JStr "en") example_two_quotes = (Return rows, w1) /\
    ((rows = [] /\
      fst (app example_env (GET_language_quote "en") example_two_quotes)
        = mkResponse 404 (none_in_language "en") /\
      fst (app example_env (GET_language_quotes "en") example_two_quotes)
        = mkResponse 404 (none_in_language "en"))
     \/
     (rows <> [] /\
      status (fst (app example_env (GET_language_quotes "en") example_two_quotes))
        = 200 /\
      exists b, In b rows /\
                fst (app example_env (GET_language_quote "en") example_two_quotes)
                  = mkResponse 200 b)).
Proof.
  assert (Hin : In "en" ["fr"; "en"]) by (simpl; auto).
  split; [exact Hin|].
  exact (random_quote_is_listed example_env "en" example_two_quotes Hin).
Defined.

Lemma example_two_quotes_supported :
  Forall language_ok (quotes (db example_two_quotes)).
Proof.
  change (quotes (db example_two_quotes))
    with [mkRow 1 "Stay hungry" "Jobs" "en"; mkRow 2 "Be yourself" "Wilde" "en"].
  repeat apply Forall_cons; try apply Forall_nil;
    unfold language_ok; simpl; auto.
Qed.

Lemma languages_stay_supported_witness :
  Forall language_ok (quotes (db example_two_quotes)) /\
  Forall language_ok
    (quotes (db (serve example_env
                   [POST_quotes (JArr example_records); example_unbindable]
                   example_two_quotes))).
Proof.
  split; [exact example_two_quotes_supported|].
  exact (languages_stay_supported example_env
           [POST_quotes (JArr example_records); example_unbindable]
           example_two_quotes example_two_quotes_supported).
Defined.

Lemma example_requests_no_array :
  Forall no_array_field
    [POST_quotes (JArr example_records); example_unbindable; example_tagged].
Proof.
  repeat constructor; intros elems H; discriminate H.
Qed.

Lemma example_two_quotes_valid : Forall row_ok (quotes (db example_two_quotes)).
Proof.
  change (quotes (db example_two_quotes))
    with [mkRow 1 "Stay hungry" "Jobs" "en"; mkRow 2 "Be yourself" "Wilde" "en"].
  repeat apply Forall_cons; try apply Forall_nil;
    unfold row_ok; simpl; (split; [auto|split; discriminate]).
Qed.

Lemma rows_stay_valid_without_array_fields_witness :
  Forall no_array_field
    [POST_quotes (JArr example_records); example_unbindable; example_tagged] /\
  Forall row_ok (quotes (db example_two_quotes)) /\
  Forall row_ok
    (quotes (db (serve example_env
                   [POST_quotes (JArr example_records); example_unbindable;
                    example_tagged]
                   example_two_quotes))).
Proof.
  split; [exact example_requests_no_array|].
  split; [exact example_two_quotes_valid|].
  exact (rows_stay_valid_without_array_fields example_env
           [POST_quotes (JArr example_records); example_unbindable;
            example_tagged]
           example_two_quotes example_requests_no_array example_two_quotes_valid).
Defined.
